(** * setup_supabase_db.py : a shallow embedding and its properties

    The script reads [supabase-config.js], extracts two credentials with
    [re.search], builds a fixed list of SQL statements and tries to run each
    one through the [execute_sql] RPC of a Supabase client, printing status
    lines on the way.

    Python values are modelled as follows.
    - [str] is a list of Unicode code points ([N]); slicing and [strip] work
      on code points, as in Python.
    - the environment (file system, import machinery, client library, remote
      service) is a record of oracles, [world];
    - the script itself is a computation in a small monad that threads the
      text printed on standard output and the log of what it did to the
      environment, and that can raise ([SystemExit] or an [Exception]).

    What the model leaves out: [print] always succeeds; what the environment
    raises is an instance of [Exception] (no [KeyboardInterrupt]); standard
    error is not recorded, an uncaught exception shows only in the exit
    status, which is 1. *)

From Stdlib Require Import String Ascii NArith ZArith Bool Arith Lia List.
From Stdlib Require Import DecimalString.
Import ListNotations.

Local Open Scope list_scope.

(* ================================================================== *)
(** ** Text *)

Module Text.

(** A character is a code point, a [str] a sequence of them. *)
Definition char := N.
Definition str := list char.

(** An ASCII literal of the source, as a [str]. *)
Definition lit (s : string) : str := map N_of_ascii (list_ascii_of_string s).

Definition quote : char := 39%N.      (* apostrophe *)
Definition dquote : str := [34%N].    (* double quote *)
Definition nl : str := [10%N].        (* line feed *)

(** Truth value of a [str]: the empty string is false. *)
Definition is_empty (s : str) : bool :=
  match s with [] => true | _ :: _ => false end.

(** [s.startswith(p)] *)
Fixpoint starts_with (p s : str) : bool :=
  match p, s with
  | [], _ => true
  | _ :: _, [] => false
  | x :: p', y :: s' => N.eqb x y && starts_with p' s'
  end.

(** [p in s] *)
Fixpoint contains (p s : str) : bool :=
  starts_with p s ||
  match s with
  | [] => false
  | _ :: s' => contains p s'
  end.

Fixpoint str_eqb (a b : str) : bool :=
  match a, b with
  | [], [] => true
  | x :: a', y :: b' => N.eqb x y && str_eqb a' b'
  | _, _ => false
  end.

(** [c.isspace()] for a code point: the characters [str.strip()] removes. *)
Definition isspace (c : char) : bool :=
  ((9 <=? c) && (c <=? 13) || (28 <=? c) && (c <=? 32) ||
   (c =? 133) || (c =? 160) || (c =? 5760) ||
   (8192 <=? c) && (c <=? 8202) || (c =? 8232) || (c =? 8233) ||
   (c =? 8239) || (c =? 8287) || (c =? 12288))%N.

Fixpoint lstrip (s : str) : str :=
  match s with
  | c :: s' => if isspace c then lstrip s' else s
  | [] => []
  end.

Definition rstrip (s : str) : str := rev (lstrip (rev s)).

(** [s.strip()] *)
Definition strip (s : str) : str := rstrip (lstrip s).

(** [s[:n]] for a non-negative [n] *)
Definition slice_to (n : nat) (s : str) : str := firstn n s.

(** [str(i)] for a non-negative integer *)
Definition str_of_nat (n : nat) : str :=
  lit (NilEmpty.string_of_uint (Nat.to_uint n)).

End Text.
Import Text.

(* ================================================================== *)
(** ** The fragment of [re] the script uses

    Patterns are built from literal text, the greedy repetition [[^c]+] of a
    negated one-character class, capture groups and concatenation. Matching
    follows the backtracking order of [re]: [alternatives r s] lists every
    way [r] matches a prefix of [s], the preferred one first. *)

Module Re.

Inductive regex : Type :=
| Lit (s : str)
| NotCharPlus (c : char)
| Group (r : regex)
| Seq (r1 r2 : regex).

(** A match of a prefix: the text consumed, the groups captured (group 1
    first) and the text that follows. *)
Record partial : Type := mkPartial {
  consumed : str;
  groups : list str;
  remainder : str
}.

(** The non-empty prefixes of the longest run of characters other than [c]
    at the head of [s], longest first (greedy), each with what follows. *)
Fixpoint runs_not (c : char) (s : str) : list (str * str) :=
  match s with
  | [] => []
  | x :: s' =>
      if N.eqb x c then []
      else map (fun mr => (x :: fst mr, snd mr)) (runs_not c s') ++ [([x], s')]
  end.

Fixpoint alternatives (r : regex) (s : str) : list partial :=
  match r with
  | Lit p =>
      if starts_with p s then [mkPartial p [] (skipn (length p) s)] else []
  | NotCharPlus c =>
      map (fun mr => mkPartial (fst mr) [] (snd mr)) (runs_not c s)
  | Group r1 =>
      map (fun m => mkPartial (consumed m) (consumed m :: groups m) (remainder m))
          (alternatives r1 s)
  | Seq r1 r2 =>
      flat_map
        (fun m1 =>
           map (fun m2 => mkPartial (consumed m1 ++ consumed m2)
                                    (groups m1 ++ groups m2)
                                    (remainder m2))
               (alternatives r2 (remainder m1)))
        (alternatives r1 s)
  end.

(** [re.match]: the preferred match at the start of [s], if any. *)
Definition match_at (r : regex) (s : str) : option partial :=
  hd_error (alternatives r s).

(** [re.search]: the match at the leftmost position that has one. *)
Fixpoint search (r : regex) (s : str) : option partial :=
  match match_at r s with
  | Some m => Some m
  | None =>
      match s with
      | [] => None
      | _ :: s' => search r s'
      end
  end.

(** [m.group(1)] *)
Definition group1 (m : partial) : str := nth 0 (groups m) [].

End Re.

(* ================================================================== *)
(** ** The runtime: output, calls to the environment, exceptions *)

Module Py.

(** The exceptions the environment can raise are instances of [Exception];
    the script tells [ImportError] (and its subclasses) from the others. *)
Inductive exc_class : Type := ImportError | OtherException.

Record exception : Type := mkExc {
  class_of : exc_class;
  message : str                   (* [str(e)] *)
}.

(** What propagates: [exit(n)] raises [SystemExit], which is not an
    [Exception]. *)
Inductive raised : Type :=
| SystemExit (code : Z)
| Exc (e : exception).

(** A value that is [None] or a [str]. *)
Definition value := option str.

(** What the script does to its environment: the import, the call of the
    constructor and, for a statement, the three steps of
    [supabase.postgrest.client.rpc(fn, params).execute()]: looking up
    [supabase.postgrest.client], calling [rpc] on it, calling [execute] on
    what [rpc] returned. *)
Inductive event : Type :=
| ImportSupabase
| CreateClient (url key : value)
| LookupClient
| Rpc (fn : str) (params : list (str * str))
| Execute.

(** The environment of one run. The three oracles for a statement see what
    was done so far: the client and the remote service have state. Each of
    them says whether its step raises. *)
Record world : Type := mkWorld {
  read_file : str -> str + exception;
  import_supabase : option exception;
  create_client : value -> value -> option exception;
  postgrest_client : list event -> option exception;
  rpc : list event -> str -> list (str * str) -> option exception;
  execute : list event -> option exception
}.

(** [stdout] holds the argument of each [print], oldest first; [calls] what
    was done to the environment, oldest first. *)
Record state : Type := mkState {
  stdout : list str;
  calls : list event
}.

Inductive outcome (A : Type) : Type :=
| Ret (a : A)
| Raise (r : raised).
Arguments Ret {A} a.
Arguments Raise {A} r.

Definition M (A : Type) : Type := state -> outcome A * state.

Definition ret {A} (a : A) : M A := fun st => (Ret a, st).

Definition bind {A B} (m : M A) (k : A -> M B) : M B :=
  fun st =>
    match m st with
    | (Ret a, st') => k a st'
    | (Raise r, st') => (Raise r, st')
    end.

Definition raise {A} (r : raised) : M A := fun st => (Raise r, st).

(** [try: body / except ...]: [handler r] is the clause that catches [r],
    [None] when no clause does. *)
Definition try_except {A} (body : M A) (handler : raised -> option (M A)) : M A :=
  fun st =>
    match body st with
    | (Ret a, st') => (Ret a, st')
    | (Raise r, st') =>
        match handler r with
        | Some h => h st'
        | None => (Raise r, st')
        end
    end.

(** [except Exception as e: h e] *)
Definition except_Exception {A} (h : exception -> M A) (r : raised) : option (M A) :=
  match r with
  | Exc e => Some (h e)
  | SystemExit _ => None
  end.

(** [except ImportError: h1 / except Exception as e: h2 e] *)
Definition except_ImportError_Exception {A}
    (h1 : M A) (h2 : exception -> M A) (r : raised) : option (M A) :=
  match r with
  | Exc e =>
      match class_of e with
      | ImportError => Some h1
      | OtherException => Some (h2 e)
      end
  | SystemExit _ => None
  end.

(** [except: h] *)
Definition except_all {A} (h : M A) (r : raised) : option (M A) := Some h.

Definition print (s : str) : M unit :=
  fun st => (Ret tt, mkState (stdout st ++ [s]) (calls st)).

Definition exit {A} (code : Z) : M A := raise (SystemExit code).

Definition call (ev : event) (res : list event -> option exception) : M unit :=
  fun st =>
    let st' := mkState (stdout st) (calls st ++ [ev]) in
    match res (calls st) with
    | None => (Ret tt, st')
    | Some e => (Raise (Exc e), st')
    end.

(** [with open(path, 'r') as f: f.read()] *)
Definition open_read (w : world) (path : str) : M str :=
  match read_file w path with
  | inl content => ret content
  | inr e => raise (Exc e)
  end.

(** [not v] *)
Definition py_not (v : value) : bool :=
  match v with
  | None => true
  | Some s => is_empty s
  end.

(** [f"{v}"] *)
Definition format (v : value) : str :=
  match v with
  | None => lit "None"
  | Some s => s
  end.

(** [v[:n]] *)
Definition subscript_to (n : nat) (v : value) : M str :=
  match v with
  | Some s => ret (slice_to n s)
  | None => raise (Exc (mkExc OtherException
                          (lit "'NoneType' object is not subscriptable")))
  end.

(** The exit status of the process. *)
Definition exit_status {A} (o : outcome A) : Z :=
  match o with
  | Ret _ => 0
  | Raise (SystemExit c) => c
  | Raise (Exc _) => 1
  end.

Definition initial : state := mkState [] [].

End Py.

Declare Scope py_scope.
Delimit Scope py_scope with py.
Notation "x <- c1 ;; c2" := (Py.bind c1 (fun x => c2))
  (at level 100, c1 at next level, right associativity) : py_scope.
Notation "c1 ;; c2" := (Py.bind c1 (fun _ => c2))
  (at level 100, right associativity) : py_scope.
Local Open Scope py_scope.

(* ================================================================== *)
(** ** The script *)

Module Script.
Import Re Py.

Definition config_path : str := lit "supabase-config.js".

(** [r"const SUPABASE_URL = '([^']+)'"] *)
Definition url_re : regex :=
  Seq (Lit (lit "const SUPABASE_URL = '"))
      (Seq (Group (NotCharPlus quote)) (Lit (lit "'"))).

(** [r"const SUPABASE_ANON_KEY = '([^']+)'"] *)
Definition key_re : regex :=
  Seq (Lit (lit "const SUPABASE_ANON_KEY = '"))
      (Seq (Group (NotCharPlus quote)) (Lit (lit "'"))).

(** [m.group(1) if m else None] *)
Definition group1_or_None (m : option partial) : value :=
  match m with
  | Some m => Some (group1 m)
  | None => None
  end.

Definition supabase_url (config_content : str) : value :=
  let url_match := search url_re config_content in
  group1_or_None url_match.

Definition supabase_key (config_content : str) : value :=
  let key_match := search key_re config_content in
  group1_or_None key_match.

(** The lines of a multi-line literal, joined by line feeds. *)
Fixpoint text (lines : list str) : str :=
  match lines with
  | [] => []
  | [l] => l
  | l :: more => l ++ nl ++ text more
  end.

Definition sql_scripts : list str :=
  [ (* User profiles table *)
    text [ [];
           lit "    CREATE TABLE IF NOT EXISTS public.user_profiles (";
           lit "      id UUID PRIMARY KEY REFERENCES auth.users(id) ON DELETE CASCADE,";
           lit "      name TEXT NOT NULL,";
           lit "      email TEXT NOT NULL UNIQUE,";
           lit "      created_at TIMESTAMP DEFAULT CURRENT_TIMESTAMP,";
           lit "      updated_at TIMESTAMP DEFAULT CURRENT_TIMESTAMP";
           lit "    );";
           lit "    " ];
    (* Enable RLS on user_profiles *)
    lit "ALTER TABLE public.user_profiles ENABLE ROW LEVEL SECURITY;";
    (* Policy: Users can read own profile *)
    text [ [];
           lit "    CREATE POLICY " ++ dquote ++ lit "Users can read own profile" ++ dquote ++ lit " ";
           lit "      ON public.user_profiles ";
           lit "      FOR SELECT ";
           lit "      USING (auth.uid() = id);";
           lit "    " ];
    (* Policy: Users can update own profile *)
    text [ [];
           lit "    CREATE POLICY " ++ dquote ++ lit "Users can update own profile" ++ dquote ++ lit " ";
           lit "      ON public.user_profiles ";
           lit "      FOR UPDATE ";
           lit "      USING (auth.uid() = id);";
           lit "    " ];
    (* Wellness check-ins table *)
    text [ [];
           lit "    CREATE TABLE IF NOT EXISTS public.wellness_checkins (";
           lit "      id BIGSERIAL PRIMARY KEY,";
           lit "      user_id UUID NOT NULL REFERENCES public.user_profiles(id) ON DELETE CASCADE,";
           lit "      mood INTEGER CHECK (mood >= 1 AND mood <= 10),";
           lit "      stress_level TEXT CHECK (stress_level IN ('Low', 'Moderate', 'High', 'Very High')),";
           lit "      sleep_hours DECIMAL(4,2),";
           lit "      journal_notes TEXT,";
           lit "      activities TEXT[],";
           lit "      created_at TIMESTAMP DEFAULT CURRENT_TIMESTAMP";
           lit "    );";
           lit "    " ];
    (* Enable RLS on wellness_checkins *)
    lit "ALTER TABLE public.wellness_checkins ENABLE ROW LEVEL SECURITY;";
    (* Policy: Users can read own check-ins *)
    text [ [];
           lit "    CREATE POLICY " ++ dquote ++ lit "Users can read own checkins" ++ dquote ++ lit " ";
           lit "      ON public.wellness_checkins ";
           lit "      FOR SELECT ";
           lit "      USING (auth.uid() = user_id);";
           lit "    " ];
    (* Policy: Users can insert check-ins *)
    text [ [];
           lit "    CREATE POLICY " ++ dquote ++ lit "Users can insert own checkins" ++ dquote ++ lit " ";
           lit "      ON public.wellness_checkins ";
           lit "      FOR INSERT ";
           lit "      WITH CHECK (auth.uid() = user_id);";
           lit "    " ]
  ].

(** The non-ASCII characters of the messages. *)
Definition cross_mark : str := [10060%N].          (* U+274C *)
Definition check_mark : str := [9989%N].           (* U+2705 *)
Definition arrows : str := [128260%N].             (* U+1F504 *)
Definition hourglass : str := [9203%N].            (* U+23F3 *)
Definition pushpin : str := [128204%N].            (* U+1F4CC *)
Definition warning_sign : str := [9888%N; 65039%N]. (* U+26A0 U+FE0F *)
Definition rightwards_arrow : str := [8594%N].     (* U+2192 *)
Definition sparkles : str := [10024%N].            (* U+2728 *)
Definition open_book : str := [128214%N].          (* U+1F4D6 *)

Definition msg_no_credentials : str :=
  cross_mark ++ lit " ERROR: Could not extract Supabase credentials from supabase-config.js".
Definition msg_found_url (url : value) : str :=
  check_mark ++ lit " Found Supabase URL: " ++ format url.
Definition msg_found_key (key50 : str) : str :=
  check_mark ++ lit " Found Supabase Key: " ++ key50 ++ lit "...".
Definition msg_creating : str :=
  nl ++ arrows ++ lit " Creating database tables..." ++ nl.
Definition msg_step_success (i : nat) : str :=
  check_mark ++ lit " Step " ++ str_of_nat i ++ lit ": Success".
Definition msg_step_alternative (i : nat) : str :=
  hourglass ++ lit " Step " ++ str_of_nat i ++ lit ": Attempting alternative execution...".

Definition msgs_initiated : list str :=
  [ nl ++ check_mark ++ lit " Database setup initiated!";
    nl ++ pushpin ++ lit " IMPORTANT:";
    lit "Some SQL statements may be executed via the Supabase dashboard.";
    lit "Please check your Supabase console to verify:";
    lit "  1. Go to 'Table Editor' and confirm tables are created";
    lit "  2. Go to each table's 'Policies' tab to verify RLS is enabled" ].

Definition msgs_import_failed : list str :=
  [ nl ++ warning_sign ++ lit "  Supabase client import failed.";
    lit "Please run the SQL manually in Supabase dashboard:";
    nl ++ lit "1. Go to Supabase Dashboard";
    lit "2. Click 'SQL Editor' " ++ rightwards_arrow ++ lit " 'New Query'";
    lit "3. Copy and paste the SQL from SUPABASE_SETUP.md";
    lit "4. Click 'Run'" ].

Definition msgs_setup_error (e : exception) : list str :=
  [ nl ++ warning_sign ++ lit "  Error during setup: " ++ message e;
    nl ++ lit "Fallback: Run SQL manually in Supabase dashboard";
    lit "See SUPABASE_SETUP.md for the SQL scripts." ].

Definition msgs_complete : list str :=
  [ nl ++ sparkles ++ lit " Setup complete! Your Supabase database is ready.";
    nl ++ open_book ++ lit " Next steps:";
    lit "1. Test with test-supabase.html";
    lit "2. Update app.js with integration code from SUPABASE_INTEGRATION.md";
    lit "3. Update LoginPageManager.init() to be async" ].

(** Consecutive [print]s. *)
Fixpoint print_all (lines : list str) : M unit :=
  match lines with
  | [] => ret tt
  | l :: more => print l ;; print_all more
  end.

(** [supabase.postgrest.client.rpc(fn, params).execute()]: the attribute
    lookups come first and can raise before [rpc] is called; [execute] is
    called on what [rpc] returns. *)
Definition rpc_execute (w : world) (fn : str) (params : list (str * str)) : M unit :=
  call LookupClient (fun history => postgrest_client w history) ;;
  call (Rpc fn params) (fun history => rpc w history fn params) ;;
  call Execute (fun history => execute w history).

(** One iteration of the loop, for the pair [(i, sql)]. *)
Definition step (w : world) (i : nat) (sql : str) : M unit :=
  let sql := strip sql in
  if is_empty sql then ret tt
  else
    try_except
      (rpc_execute w (lit "execute_sql") [(lit "sql", sql)] ;;
       print (msg_step_success i))
      (except_Exception (fun e =>
         try_except
           (print (msg_step_alternative i))
           (except_all (ret tt)))).

(** [for i, sql in enumerate(scripts, i): ...] *)
Fixpoint for_each (w : world) (i : nat) (scripts : list str) : M unit :=
  match scripts with
  | [] => ret tt
  | sql :: more => step w i sql ;; for_each w (S i) more
  end.

(** The body of the outer [try]. *)
Definition setup (w : world) (url key : value) : M unit :=
  call ImportSupabase (fun _ => import_supabase w) ;;
  call (CreateClient url key) (fun _ => create_client w url key) ;;
  print msg_creating ;;
  for_each w 1 sql_scripts ;;
  print_all msgs_initiated.

Definition main (w : world) : M unit :=
  config_content <- open_read w config_path ;;
  let supabase_url := supabase_url config_content in
  let supabase_key := supabase_key config_content in
  (if py_not supabase_url || py_not supabase_key
   then print msg_no_credentials ;; exit 1
   else ret tt) ;;
  print (msg_found_url supabase_url) ;;
  key50 <- subscript_to 50 supabase_key ;;
  print (msg_found_key key50) ;;
  try_except
    (setup w supabase_url supabase_key)
    (except_ImportError_Exception
       (print_all msgs_import_failed ;; exit 1)
       (fun e => print_all (msgs_setup_error e) ;; exit 1)) ;;
  print_all msgs_complete.

(** A run of the script from a fresh process. *)
Definition run (w : world) : outcome unit * state := main w initial.

End Script.

(* ================================================================== *)
(** ** Vocabulary of the properties *)

Module Props.
Import Re Py Script.

(** *** Configuration files *)

Definition url_prefix : str := lit "const SUPABASE_URL = '".
Definition key_prefix : str := lit "const SUPABASE_ANON_KEY = '".

(** The pattern [prefix([^']+)'] both extractions are instances of. *)
Definition assignment (prefix : str) : regex :=
  Seq (Lit prefix) (Seq (Group (NotCharPlus quote)) (Lit [quote])).

(** No apostrophe in [v]. *)
Definition quote_free (v : str) : bool :=
  forallb (fun x => negb (N.eqb x quote)) v.

(** [content] holds the assignment [prefix v '] and [prefix] does not occur
    before it. *)
Definition first_assignment (prefix v content : str) : Prop :=
  exists pre post,
    content = pre ++ prefix ++ v ++ quote :: post /\
    contains prefix pre = false.



(** The first character of [p] occurs nowhere else in [p], so two
    occurrences of [p] cannot overlap. *)
Definition head_unique (p : str) : bool :=
  match p with
  | [] => false
  | c :: t => negb (existsb (N.eqb c) t)
  end.

(** *** Statements *)

Inductive table : Type := Profile | Checkins.

Inductive statement_kind : Type :=
| CreateTable (t : table)
| EnableSecurity (t : table)
| SecurityPolicy (t : table).

Definition table_name (t : table) : str :=
  match t with
  | Profile => lit "public.user_profiles"
  | Checkins => lit "public.wellness_checkins"
  end.

Definition creates_table (t : table) (sql : str) : bool :=
  starts_with (lit "CREATE TABLE IF NOT EXISTS " ++ table_name t ++ lit " (") (strip sql).

Definition enables_security (t : table) (sql : str) : bool :=
  str_eqb (strip sql) (lit "ALTER TABLE " ++ table_name t ++ lit " ENABLE ROW LEVEL SECURITY;").

Definition is_policy_on (t : table) (sql : str) : bool :=
  starts_with (lit "CREATE POLICY ") (strip sql) &&
  contains (lit "ON " ++ table_name t ++ lit " ") sql.

(** [sql] has a foreign key into the table [t]. *)
Definition references_table (t : table) (sql : str) : bool :=
  contains (lit "REFERENCES " ++ table_name t ++ lit "(") sql.

Definition classify (sql : str) : option statement_kind :=
  if creates_table Profile sql then Some (CreateTable Profile)
  else if creates_table Checkins sql then Some (CreateTable Checkins)
  else if enables_security Profile sql then Some (EnableSecurity Profile)
  else if enables_security Checkins sql then Some (EnableSecurity Checkins)
  else if is_policy_on Profile sql then Some (SecurityPolicy Profile)
  else if is_policy_on Checkins sql then Some (SecurityPolicy Checkins)
  else None.

(** Every statement that satisfies [dependent] comes after one that
    satisfies [prerequisite]. *)
Definition follows (prerequisite dependent : str -> bool) (l : list str) : Prop :=
  forall j s, nth_error l j = Some s -> dependent s = true ->
    exists i p, i < j /\ nth_error l i = Some p /\ prerequisite p = true.

Fixpoint followsb_from (seen : bool) (prerequisite dependent : str -> bool)
    (l : list str) : bool :=
  match l with
  | [] => true
  | s :: l' =>
      (if dependent s then seen else true) &&
      followsb_from (seen || prerequisite s) prerequisite dependent l'
  end.

Definition followsb := followsb_from false.

(** *** The executor *)

(** The call made for one statement text. *)
Definition rpc_event (sql : str) : event :=
  Rpc (lit "execute_sql") [(lit "sql", sql)].

Definition is_rpc (ev : event) : bool :=
  match ev with Rpc _ _ => true | _ => false end.

Definition is_create_client (ev : event) : bool :=
  match ev with CreateClient _ _ => true | _ => false end.

(** The calls of [rpc] in a log, and the constructor calls. *)
Definition rpc_calls (st : state) : list event := filter is_rpc (calls st).
Definition constructor_calls (st : state) : list event :=
  filter is_create_client (calls st).

(** [enumerate(l, i)] *)
Fixpoint enumerate {A} (i : nat) (l : list A) : list (nat * A) :=
  match l with
  | [] => []
  | x :: l' => (i, x) :: enumerate (S i) l'
  end.

(** The statements the loop attempts, with their step numbers: each one
    stripped, the blank ones skipped. *)
Definition attempts (i : nat) (scripts : list str) : list (nat * str) :=
  filter (fun a => negb (is_empty (snd a)))
         (map (fun a => (fst a, strip (snd a))) (enumerate i scripts)).

Definition is_lookup (ev : event) : bool :=
  match ev with LookupClient => true | _ => false end.

(** What line 113 does for the text [sql] after [history]: what it adds to
    the log, and whether it returned. The lookup is always made; [rpc] is
    called only if the lookup returned, [execute] only if [rpc] returned. *)
Definition attempt (w : world) (history : list event) (sql : str)
  : list event * bool :=
  match postgrest_client w history with
  | Some _ => ([LookupClient], false)
  | None =>
      match rpc w (history ++ [LookupClient]) (lit "execute_sql") [(lit "sql", sql)] with
      | Some _ => ([LookupClient; rpc_event sql], false)
      | None =>
          match execute w (history ++ [LookupClient; rpc_event sql]) with
          | Some _ => ([LookupClient; rpc_event sql; Execute], false)
          | None => ([LookupClient; rpc_event sql; Execute], true)
          end
      end
  end.

(** The attempts for the texts [texts], one after the other. *)
Fixpoint replay (w : world) (history : list event) (texts : list str)
  : list (list event * bool) :=
  match texts with
  | [] => []
  | sql :: more =>
      attempt w history sql ::
      replay w (history ++ fst (attempt w history sql)) more
  end.



(** The line printed for an attempt and its outcome. *)
Definition report (ao : (nat * str) * bool) : str :=
  if snd ao then msg_step_success (fst (fst ao))
  else msg_step_alternative (fst (fst ao)).

(** The run of [w] finds the credentials [u] and [k], imports the client
    library and builds the client: it gets to the loop. *)
Definition reaches_executor (w : world) (u k : str) : Prop :=
  exists content,
    read_file w config_path = inl content /\
    supabase_url content = Some u /\
    supabase_key content = Some k /\
    import_supabase w = None /\
    create_client w (Some u) (Some k) = None.

(** What is done before the loop starts. *)
Definition client_calls (url key : value) : list event :=
  [ImportSupabase; CreateClient url key].

(** What the loop does for each statement of [sql_scripts] in a run that
    gets to it. *)
Definition loop_log (w : world) (u k : str) : list (list event * bool) :=
  replay w (client_calls (Some u) (Some k)) (map strip sql_scripts).

(** What was done before the loop turns to statement number [n] (from 0). *)
Definition history_at (w : world) (u k : str) (n : nat) : list event :=
  client_calls (Some u) (Some k) ++ concat (map fst (firstn n (loop_log w u k))).


(** *** Runs *)

(** [st'] is [st] with more output and more calls. *)
Definition extends (st st' : state) : Prop :=
  exists out evs, st' = mkState (stdout st ++ out) (calls st ++ evs).

(** [m] only adds to the output and to the call log. *)
Definition appends {A} (m : M A) : Prop :=
  forall st, extends st (snd (m st)).

(** Everything after the two [Found] lines. *)
Definition after_credentials (w : world) (url key : value) : M unit :=
  try_except
    (setup w url key)
    (except_ImportError_Exception
       (print_all msgs_import_failed ;; exit 1)
       (fun e => print_all (msgs_setup_error e) ;; exit 1)) ;;
  print_all msgs_complete.

(** The loop sends [sql]: it is not blank. *)
Definition nonblank (sql : str) : bool := negb (is_empty (strip sql)).

(** *** Worlds used to exercise the statements *)

Definition sample_url : str := lit "https://x.supabase.co".
Definition sample_key : str :=
  lit "abcdefghijklmnopqrstuvwxyz0123456789ABCDEFGHIJKLMNOP".

Definition key51 : str :=
  lit "abcdefghijklmnopqrstuvwxyz0123456789ABCDEFGHIJKLMNO".

Definition config_with (url key : str) : str :=
  url_prefix ++ url ++ lit "'" ++ nl ++ key_prefix ++ key ++ lit "'" ++ nl.

Definition sample_config : str := config_with sample_url sample_key.

Definition rpc_missing : exception :=
  mkExc OtherException (lit "Could not find the function public.execute_sql").

Definition no_module : exception :=
  mkExc ImportError (lit "No module named 'supabase'").

Definition no_attribute : exception :=
  mkExc OtherException
        (lit "'SyncPostgrestClient' object has no attribute 'client'").

(** The [execute_sql] endpoint does not exist: every call of [rpc] raises. *)
Definition world_rpc_missing (content : str) : world :=
  mkWorld (fun _ => inl content) None (fun _ _ => None)
          (fun _ => None) (fun _ _ _ => Some rpc_missing) (fun _ => None).

(** Every step succeeds. *)
Definition world_ok (content : str) : world :=
  mkWorld (fun _ => inl content) None (fun _ _ => None)
          (fun _ => None) (fun _ _ _ => None) (fun _ => None).

(** The client library is not installed. *)
Definition world_no_client (content : str) : world :=
  mkWorld (fun _ => inl content) (Some no_module) (fun _ _ => None)
          (fun _ => None) (fun _ _ _ => None) (fun _ => None).

(** The service answers the first three calls and fails afterwards. *)
Definition world_flaky (content : str) : world :=
  mkWorld (fun _ => inl content) None (fun _ _ => None)
          (fun _ => None)
          (fun history _ _ =>
             if length (filter is_rpc history) <? 3 then None else Some rpc_missing)
          (fun _ => None).

(** The client object has no [postgrest.client]: every lookup raises. *)
Definition world_no_attribute (content : str) : world :=
  mkWorld (fun _ => inl content) None (fun _ _ => None)
          (fun _ => Some no_attribute) (fun _ _ _ => None) (fun _ => None).

(** The lookup raises for the third statement only; [execute] raises for
    the fifth call that gets to it. *)
Definition world_mixed (content : str) : world :=
  mkWorld (fun _ => inl content) None (fun _ _ => None)
          (fun history =>
             if length (filter is_lookup history) =? 2
             then Some no_attribute else None)
          (fun _ _ _ => None)
          (fun history =>
             if length (filter is_rpc history) =? 5
             then Some rpc_missing else None).

(** A call that raises [e] whatever it is given. *)
Definition world_client_fails (e : exception) (content : str) : world :=
  mkWorld (fun _ => inl content) None (fun _ _ => Some e)
          (fun _ => None) (fun _ _ _ => None) (fun _ => None).

Definition world_import_fails (e : exception) (content : str) : world :=
  mkWorld (fun _ => inl content) (Some e) (fun _ _ => None)
          (fun _ => None) (fun _ _ _ => None) (fun _ => None).

Definition no_file : exception :=
  mkExc OtherException
        (lit "[Errno 2] No such file or directory: 'supabase-config.js'").

Definition bad_url : exception := mkExc OtherException (lit "Invalid URL").

(** The configuration file cannot be read. *)
Definition world_unreadable : world :=
  mkWorld (fun _ => inr no_file) None (fun _ _ => None)
          (fun _ => None) (fun _ _ _ => None) (fun _ => None).

(** *** The ways a run ends *)

(** The two lines printed once the credentials are found. *)
Definition found_lines (u k : str) : list str :=
  [msg_found_url (Some u); msg_found_key (slice_to 50 k)].

(** What the outer handlers print for [e]. *)
Definition handler_lines (e : exception) : list str :=
  match class_of e with
  | ImportError => msgs_import_failed
  | OtherException => msgs_setup_error e
  end.

(** The lines of the loop in a run that gets to it. *)
Definition step_lines (w : world) (u k : str) : list str :=
  map report (combine (attempts 1 sql_scripts) (map snd (loop_log w u k))).

Inductive ending (w : world) : Prop :=
| Unreadable (e : exception) :
    read_file w config_path = inr e ->
    run w = (Raise (Exc e), initial) ->
    ending w
| NoCredentials (content : str) :
    read_file w config_path = inl content ->
    supabase_url content = None \/ supabase_key content = None ->
    run w = (Raise (SystemExit 1), mkState [msg_no_credentials] []) ->
    ending w
| ImportFailed (content u k : str) (e : exception) :
    read_file w config_path = inl content ->
    supabase_url content = Some u ->
    supabase_key content = Some k ->
    import_supabase w = Some e ->
    run w = (Raise (SystemExit 1),
             mkState (found_lines u k ++ handler_lines e) [ImportSupabase]) ->
    ending w
| ClientFailed (content u k : str) (e : exception) :
    read_file w config_path = inl content ->
    supabase_url content = Some u ->
    supabase_key content = Some k ->
    import_supabase w = None ->
    create_client w (Some u) (Some k) = Some e ->
    run w = (Raise (SystemExit 1),
             mkState (found_lines u k ++ handler_lines e)
                     (client_calls (Some u) (Some k))) ->
    ending w
| Completed (u k : str) :
    reaches_executor w u k ->
    run w = (Ret tt,
             mkState (found_lines u k ++ [msg_creating] ++ step_lines w u k ++
                      msgs_initiated ++ msgs_complete)
                     (client_calls (Some u) (Some k) ++
                      concat (map fst (loop_log w u k)))) ->
    ending w.

(** The first line of the closing message. *)
Definition banner : str :=
  10%N :: 10024%N :: lit " Setup complete! Your Supabase database is ready.".

(** *** Well-formed assignments *)

(** [content] is [pre], then [prefix v '], then [post], with [v] non-empty
    and free of apostrophes. *)
Definition well_formed_at (prefix v pre post content : str) : Prop :=
  content = pre ++ prefix ++ v ++ quote :: post /\
  is_empty v = false /\ quote_free v = true.

Definition has_assignment (prefix content : str) : Prop :=
  exists v pre post, well_formed_at prefix v pre post content.

(** [v] is the value of the well-formed assignment that starts first. *)
Definition leftmost_assignment (prefix v content : str) : Prop :=
  exists pre post,
    well_formed_at prefix v pre post content /\
    forall v' pre' post',
      well_formed_at prefix v' pre' post' content -> length pre <= length pre'.

(** *** Texts sent *)



(** The eight statements as they are sent: the texts of [sql_scripts]
    without the white space at their two ends, written out. *)
Definition stripped_statements : list str :=
  [ lit "CREATE TABLE IF NOT EXISTS public.user_profiles (" ++ [10%N] ++
    lit "      id UUID PRIMARY KEY REFERENCES auth.users(id) ON DELETE CASCADE," ++ [10%N] ++
    lit "      name TEXT NOT NULL," ++ [10%N] ++
    lit "      email TEXT NOT NULL UNIQUE," ++ [10%N] ++
    lit "      created_at TIMESTAMP DEFAULT CURRENT_TIMESTAMP," ++ [10%N] ++
    lit "      updated_at TIMESTAMP DEFAULT CURRENT_TIMESTAMP" ++ [10%N] ++
    lit "    );";
    lit "ALTER TABLE public.user_profiles ENABLE ROW LEVEL SECURITY;";
    lit "CREATE POLICY " ++ [34%N] ++ lit "Users can read own profile" ++ [34%N] ++ lit " " ++ [10%N] ++
    lit "      ON public.user_profiles " ++ [10%N] ++
    lit "      FOR SELECT " ++ [10%N] ++
    lit "      USING (auth.uid() = id);";
    lit "CREATE POLICY " ++ [34%N] ++ lit "Users can update own profile" ++ [34%N] ++ lit " " ++ [10%N] ++
    lit "      ON public.user_profiles " ++ [10%N] ++
    lit "      FOR UPDATE " ++ [10%N] ++
    lit "      USING (auth.uid() = id);";
    lit "CREATE TABLE IF NOT EXISTS public.wellness_checkins (" ++ [10%N] ++
    lit "      id BIGSERIAL PRIMARY KEY," ++ [10%N] ++
    lit "      user_id UUID NOT NULL REFERENCES public.user_profiles(id) ON DELETE CASCADE," ++ [10%N] ++
    lit "      mood INTEGER CHECK (mood >= 1 AND mood <= 10)," ++ [10%N] ++
    lit "      stress_level TEXT CHECK (stress_level IN ('Low', 'Moderate', 'High', 'Very High'))," ++ [10%N] ++
    lit "      sleep_hours DECIMAL(4,2)," ++ [10%N] ++
    lit "      journal_notes TEXT," ++ [10%N] ++
    lit "      activities TEXT[]," ++ [10%N] ++
    lit "      created_at TIMESTAMP DEFAULT CURRENT_TIMESTAMP" ++ [10%N] ++
    lit "    );";
    lit "ALTER TABLE public.wellness_checkins ENABLE ROW LEVEL SECURITY;";
    lit "CREATE POLICY " ++ [34%N] ++ lit "Users can read own checkins" ++ [34%N] ++ lit " " ++ [10%N] ++
    lit "      ON public.wellness_checkins " ++ [10%N] ++
    lit "      FOR SELECT " ++ [10%N] ++
    lit "      USING (auth.uid() = user_id);";
    lit "CREATE POLICY " ++ [34%N] ++ lit "Users can insert own checkins" ++ [34%N] ++ lit " " ++ [10%N] ++
    lit "      ON public.wellness_checkins " ++ [10%N] ++
    lit "      FOR INSERT " ++ [10%N] ++
    lit "      WITH CHECK (auth.uid() = user_id);" ].

(** The three steps of line 113. *)
Definition is_statement_step (ev : event) : bool :=
  match ev with
  | LookupClient | Rpc _ _ | Execute => true
  | _ => false
  end.

(** The call [rpc('execute_sql', {'sql': text})], written out. *)
Definition execute_sql_call (text : str) : event :=
  Rpc (lit "execute_sql") [(lit "sql", text)].

End Props.

(* ================================================================== *)
(** ** Facts about text *)

Module TextFacts.

Lemma starts_with_app (p s : str) : starts_with p (p ++ s) = true.
Proof.
  induction p as [|x p IH]; simpl; [reflexivity|].
  now rewrite N.eqb_refl, IH.
Qed.

Lemma starts_with_refl (p : str) : starts_with p p = true.
Proof.
  induction p as [|x p IH]; simpl; [reflexivity|].
  now rewrite N.eqb_refl, IH.
Qed.

Lemma starts_with_inv (p s : str) :
  starts_with p s = true -> s = p ++ skipn (length p) s.
Proof.
  revert s; induction p as [|x p IH]; intros [|y s]; simpl; try easy.
  intros H; apply andb_true_iff in H as [Hxy Hp].
  apply N.eqb_eq in Hxy; subst y.
  f_equal; now apply IH.
Qed.

Lemma skipn_length_app (p s : str) : skipn (length p) (p ++ s) = s.
Proof. induction p; simpl; auto. Qed.

Lemma starts_with_char (c x : char) (s : str) :
  starts_with [c] (x :: s) = N.eqb x c.
Proof. cbn [starts_with]; now rewrite andb_true_r, N.eqb_sym. Qed.

Lemma starts_with_head (c : char) (s : str) :
  starts_with [c] s = true -> exists s', s = c :: s'.
Proof.
  destruct s as [|y s]; simpl; [discriminate|].
  rewrite andb_true_r; intros H; apply N.eqb_eq in H; subst; eauto.
Qed.

(** An occurrence of [p] at the start of [b ++ s] lies within [b] or runs
    over into [s]. *)
Lemma starts_with_overlap (p b s : str) :
  starts_with p (b ++ s) = true ->
  starts_with p b = true \/ exists p2, p = b ++ p2 /\ starts_with p2 s = true.
Proof.
  revert b; induction p as [|x p IH]; intros b H.
  - now left.
  - destruct b as [|y b].
    + right; exists (x :: p); split; [reflexivity | exact H].
    + simpl in H; apply andb_true_iff in H as [Hxy H].
      apply N.eqb_eq in Hxy; subst y.
      destruct (IH b H) as [Hb | (p2 & -> & Hp2)].
      * left; simpl; now rewrite N.eqb_refl.
      * right; exists p2; split; [reflexivity | exact Hp2].
Qed.

Lemma contains_false_head (p s : str) :
  contains p s = false -> starts_with p s = false.
Proof.
  destruct s; simpl; intros H; apply orb_false_iff in H; tauto.
Qed.

Lemma contains_false_suffix (p a b : str) :
  contains p (a ++ b) = false -> contains p b = false.
Proof.
  induction a as [|x a IH]; simpl; [easy|].
  intros H; apply orb_false_iff in H as [_ H]; auto.
Qed.

Lemma contains_false_prefix (p a b : str) :
  contains p (a ++ b) = false -> starts_with p a = false.
Proof.
  intros H; apply contains_false_head in H.
  destruct (starts_with p a) eqn:E; [|reflexivity].
  apply starts_with_inv in E; rewrite E, <- app_assoc in H.
  now rewrite starts_with_app in H.
Qed.

Lemma contains_true_split (p s : str) :
  contains p s = true -> exists a b, s = a ++ p ++ b.
Proof.
  induction s as [|x s IH]; simpl.
  - rewrite orb_false_r; intros H; apply starts_with_inv in H.
    exists [], (skipn (length p) []); exact H.
  - intros H; apply orb_true_iff in H as [H | H].
    + apply starts_with_inv in H; exists [], (skipn (length p) (x :: s)); exact H.
    + destruct (IH H) as (a & b & ->); exists (x :: a), b; reflexivity.
Qed.

(** When the first character of [p] is unique in [p], no occurrence of [p]
    starts inside a text [b] without [p] and runs over into a following
    occurrence of [p]. *)
Lemma no_straddling_occurrence (p b rest : str) :
  Props.head_unique p = true ->
  b <> [] ->
  starts_with p b = false ->
  starts_with p (b ++ p ++ rest) = false.
Proof.
  intros Hu Hb Hnb.
  destruct (starts_with p (b ++ p ++ rest)) eqn:E; [|reflexivity].
  exfalso.
  apply starts_with_overlap in E as [E | (p2 & Hp & Hp2)]; [congruence|].
  destruct p as [|c t]; [discriminate|].
  destruct b as [|y b]; [congruence|].
  simpl in Hp; injection Hp as Hc Ht; subst y.
  destruct p2 as [|z p2].
  - rewrite app_nil_r in Ht; subst t.
    rewrite starts_with_refl in Hnb; discriminate.
  - simpl in Hp2; apply andb_true_iff in Hp2 as [Hz _].
    apply N.eqb_eq in Hz; subst z.
    simpl in Hu; apply negb_true_iff in Hu.
    assert (Hin : existsb (N.eqb c) t = true).
    { apply existsb_exists; exists c; split; [|apply N.eqb_refl].
      subst t; apply in_or_app; right; now left. }
    congruence.
Qed.

End TextFacts.

(* ================================================================== *)
(** ** Facts about matching *)

Module ReFacts.
Import Re Props TextFacts.

Lemma quote_free_cons (x : char) (v : str) :
  quote_free (x :: v) = true -> N.eqb x quote = false /\ quote_free v = true.
Proof.
  unfold quote_free; simpl; intros H.
  apply andb_true_iff in H as [Hx Hv]; apply negb_true_iff in Hx; auto.
Qed.

(** Every run [runs_not] returns is a non-empty quote-free prefix. *)
Lemma runs_not_sound (s m r : str) :
  In (m, r) (runs_not quote s) ->
  s = m ++ r /\ is_empty m = false /\ quote_free m = true.
Proof.
  revert m r; induction s as [|x s IH]; intros m r; simpl; [easy|].
  destruct (N.eqb x quote) eqn:Ex; [easy|].
  intros H; apply in_app_or in H as [H | [H | []]].
  - apply in_map_iff in H as ([m' r'] & E & Hin).
    simpl in E; injection E as <- <-.
    destruct (IH _ _ Hin) as (-> & _ & Hq).
    repeat split; unfold quote_free; simpl.
    now rewrite Ex; simpl.
  - injection H as <- <-.
    repeat split; unfold quote_free; simpl.
    now rewrite Ex.
Qed.

(** Greedy: at a non-empty quote-free value followed by an apostrophe, the
    first run is the whole value, and no shorter run is followed by an
    apostrophe. *)
Lemma runs_not_greedy (v post : str) :
  is_empty v = false -> quote_free v = true ->
  exists shorter,
    runs_not quote (v ++ quote :: post) = (v, quote :: post) :: shorter /\
    Forall (fun mr => starts_with [quote] (snd mr) = false) shorter.
Proof.
  induction v as [|x v IH]; [discriminate|].
  intros _ Hq; apply quote_free_cons in Hq as [Hx Hv].
  destruct v as [|y v].
  - exists []; split; [|constructor].
    cbn [app runs_not]; rewrite Hx; unfold quote at 1 2; rewrite N.eqb_refl.
    reflexivity.
  - destruct (IH eq_refl Hv) as (shorter & E & Hall).
    exists (map (fun mr => (x :: fst mr, snd mr)) shorter ++
            [([x], (y :: v) ++ quote :: post)]).
    split.
    + change ((x :: y :: v) ++ quote :: post)
        with (x :: ((y :: v) ++ quote :: post)).
      cbn [runs_not]; rewrite Hx, E; reflexivity.
    + apply Forall_app; split.
      * apply Forall_map; simpl; exact Hall.
      * constructor; [|constructor].
        apply quote_free_cons in Hv as [Hy _].
        cbn [snd app]; now rewrite starts_with_char.
Qed.


(** The alternatives of [[^']+'] once the runs are known. *)
Lemma alternatives_value (s : str) :
  alternatives (Seq (Group (NotCharPlus quote)) (Lit [quote])) s =
  flat_map
    (fun mr =>
       if starts_with [quote] (snd mr)
       then [mkPartial (fst mr ++ [quote]) [fst mr] (skipn 1 (snd mr))]
       else [])
    (runs_not quote s).
Proof.
  cbn [alternatives]; rewrite map_map.
  induction (runs_not quote s) as [|mr l IH]; [reflexivity|].
  cbn [map flat_map]; rewrite IH; f_equal.
  destruct mr as [m [|c t]]; [reflexivity|].
  cbn [consumed groups remainder fst snd starts_with].
  destruct (N.eqb quote c); reflexivity.
Qed.

Lemma alternatives_assignment (prefix s : str) :
  alternatives (assignment prefix) s =
  if starts_with prefix s
  then map (fun m => mkPartial (prefix ++ consumed m) (groups m) (remainder m))
           (alternatives (Seq (Group (NotCharPlus quote)) (Lit [quote]))
                         (skipn (length prefix) s))
  else [].
Proof.
  unfold assignment.
  change (alternatives (Seq (Lit prefix) ?r) s)
    with (flat_map
            (fun m1 =>
               map (fun m2 => mkPartial (consumed m1 ++ consumed m2)
                                        (groups m1 ++ groups m2)
                                        (remainder m2))
                   (alternatives r (remainder m1)))
            (alternatives (Lit prefix) s)).
  simpl alternatives at 2.
  destruct (starts_with prefix s); [|reflexivity].
  cbn [flat_map remainder consumed groups app].
  now rewrite app_nil_r.
Qed.

(** The pattern does not match where the prefix is absent. *)
Lemma match_at_no_prefix (prefix s : str) :
  starts_with prefix s = false -> match_at (assignment prefix) s = None.
Proof.
  intros H; unfold match_at; now rewrite alternatives_assignment, H.
Qed.


(** At an assignment with a non-empty quote-free value the pattern matches
    and captures the value. *)
Lemma match_at_value (prefix v post : str) :
  is_empty v = false -> quote_free v = true ->
  match_at (assignment prefix) (prefix ++ v ++ quote :: post) =
  Some (mkPartial (prefix ++ v ++ [quote]) [v] post).
Proof.
  intros Hne Hq; unfold match_at.
  rewrite alternatives_assignment, starts_with_app, skipn_length_app.
  rewrite alternatives_value.
  destruct (runs_not_greedy v post Hne Hq) as (shorter & -> & _).
  cbn [flat_map fst snd]; rewrite starts_with_char, N.eqb_refl; reflexivity.
Qed.

(** Whatever the pattern matches is an assignment with a non-empty
    quote-free value, which is the group captured. *)
Lemma match_at_sound (prefix s : str) (m : partial) :
  match_at (assignment prefix) s = Some m ->
  exists v post,
    s = prefix ++ v ++ quote :: post /\
    is_empty v = false /\ quote_free v = true /\ group1 m = v.
Proof.
  unfold match_at; rewrite alternatives_assignment.
  destruct (starts_with prefix s) eqn:Hp; [|discriminate].
  rewrite alternatives_value.
  intros H.
  assert (Hin : In m (map (fun m => mkPartial (prefix ++ consumed m) (groups m) (remainder m))
      (flat_map
         (fun mr => if starts_with [quote] (snd mr)
                    then [mkPartial (fst mr ++ [quote]) [fst mr] (skipn 1 (snd mr))]
                    else [])
         (runs_not quote (skipn (length prefix) s))))).
  { destruct (map _ _); [discriminate|]. injection H as ->; now left. }
  clear H.
  apply in_map_iff in Hin as (m2 & <- & Hin).
  apply in_flat_map in Hin as ([v r] & Hrun & Hin).
  cbn [fst snd] in Hin.
  destruct (starts_with [quote] r) eqn:Hr; [|easy].
  destruct Hin as [<- | []].
  apply runs_not_sound in Hrun as (Hs & Hne & Hq).
  apply starts_with_head in Hr as (post & ->).
  exists v, post; repeat split; auto.
  rewrite (starts_with_inv _ _ Hp), Hs; reflexivity.
Qed.

(** [search] skips a prefix of the text at no suffix of which the pattern
    matches. *)
Lemma search_skip (r : regex) (pre s : str) :
  (forall a b, pre = a ++ b -> b <> [] -> match_at r (b ++ s) = None) ->
  search r (pre ++ s) = search r s.
Proof.
  induction pre as [|x pre IH]; intros H; [reflexivity|].
  assert (H0 : match_at r ((x :: pre) ++ s) = None)
    by (apply (H [] (x :: pre)); [reflexivity | discriminate]).
  cbn [app search] in *; rewrite H0.
  apply IH; intros a b -> Hb.
  apply (H (x :: a) b eq_refl Hb).
Qed.

Lemma search_here (r : regex) (s : str) (m : partial) :
  match_at r s = Some m -> search r s = Some m.
Proof. intros H; destruct s; simpl; now rewrite H. Qed.

(** A result of [search] is a match at some position. *)
Lemma search_sound (r : regex) (s : str) (m : partial) :
  search r s = Some m -> exists a b, s = a ++ b /\ match_at r b = Some m.
Proof.
  induction s as [|x s IH]; simpl.
  - destruct (match_at r []) eqn:E; [|discriminate].
    intros H; injection H as ->; exists [], []; auto.
  - destruct (match_at r (x :: s)) eqn:E.
    + intros H; injection H as ->; exists [], (x :: s); auto.
    + intros H; destruct (IH H) as (a & b & -> & Hb).
      exists (x :: a), b; auto.
Qed.

(** [search] finds nothing when the pattern matches nowhere. *)
Lemma search_none (r : regex) (s : str) :
  (forall a b, s = a ++ b -> match_at r b = None) -> search r s = None.
Proof.
  intros H; destruct (search r s) eqn:E; [|reflexivity].
  apply search_sound in E as (a & b & Hs & Hm).
  rewrite (H a b Hs) in Hm; discriminate.
Qed.

(** The first assignment with a non-empty quote-free value is what
    [search] returns. *)
Lemma search_first_assignment (prefix v content : str) :
  head_unique prefix = true ->
  first_assignment prefix v content ->
  is_empty v = false -> quote_free v = true ->
  option_map group1 (search (assignment prefix) content) = Some v.
Proof.
  intros Hu (pre & post & -> & Hpre) Hne Hq.
  rewrite search_skip.
  - now rewrite (search_here _ _ _ (match_at_value prefix v post Hne Hq)).
  - intros a b -> Hb.
    apply match_at_no_prefix, no_straddling_occurrence; auto.
    apply contains_false_head; eapply contains_false_suffix; exact Hpre.
Qed.



(** A result of [search] is a match at the first position that has one. *)
Lemma search_leftmost (r : regex) (s : str) (m : partial) :
  search r s = Some m ->
  exists a b,
    s = a ++ b /\ match_at r b = Some m /\
    forall a' b', s = a' ++ b' -> length a' < length a -> match_at r b' = None.
Proof.
  induction s as [|x s IH]; cbn [search].
  - destruct (match_at r []) eqn:E; [|discriminate].
    intros H; injection H as ->; exists [], []; repeat split; auto.
    intros a' b' _ Hlt; cbn in Hlt; lia.
  - destruct (match_at r (x :: s)) eqn:E.
    + intros H; injection H as ->; exists [], (x :: s); repeat split; auto.
      intros a' b' _ Hlt; cbn in Hlt; lia.
    + intros H; destruct (IH H) as (a & b & -> & Hb & Hmin).
      exists (x :: a), b; repeat split; auto.
      intros [|y a'] b' Hs Hlt.
      * cbn [app] in Hs; subst b'; exact E.
      * cbn [app] in Hs; injection Hs as _ Hs.
        apply (Hmin a' b' Hs); cbn [length] in Hlt; lia.
Qed.

(** [search] finds something as soon as the pattern matches somewhere. *)
Lemma search_complete (r : regex) (a b : str) (m : partial) :
  match_at r b = Some m -> search r (a ++ b) <> None.
Proof.
  intros Hm; induction a as [|x a IH]; cbn [app].
  - now rewrite (search_here _ _ _ Hm).
  - cbn [search]; destruct (match_at r (x :: a ++ b)); [discriminate | exact IH].
Qed.

(** What the extractor returns for [prefix] is the value of the leftmost
    well-formed assignment, and it returns something exactly when there is
    one. *)
Lemma group1_search_leftmost (prefix content v : str) :
  option_map group1 (search (assignment prefix) content) = Some v <->
  leftmost_assignment prefix v content.
Proof.
  split.
  - destruct (search (assignment prefix) content) as [m|] eqn:E; [|discriminate].
    cbn [option_map]; intros H; injection H as <-.
    apply search_leftmost in E as (a & b & -> & Hm & Hmin).
    apply match_at_sound in Hm as (v & post & -> & Hne & Hq & ->).
    exists a, post; split; [repeat split; auto|].
    intros v' pre' post' (Hc & Hne' & Hq').
    destruct (Nat.le_gt_cases (length a) (length pre')) as [Hle | Hlt]; [exact Hle|].
    pose proof (match_at_value prefix v' post' Hne' Hq') as Hm.
    rewrite (Hmin pre' _ Hc Hlt) in Hm; discriminate.
  - intros (pre & post & (-> & Hne & Hq) & Hmin).
    rewrite search_skip.
    + now rewrite (search_here _ _ _ (match_at_value prefix v post Hne Hq)).
    + intros a b -> Hb.
      destruct (match_at (assignment prefix) (b ++ prefix ++ v ++ quote :: post))
        as [m|] eqn:E; [|reflexivity].
      exfalso.
      apply match_at_sound in E as (v' & post' & Hs & Hne' & Hq' & _).
      assert (Hwf : well_formed_at prefix v' a post'
                      ((a ++ b) ++ prefix ++ v ++ quote :: post)).
      { repeat split; auto; now rewrite <- app_assoc, Hs. }
      apply Hmin in Hwf; rewrite length_app in Hwf.
      destruct b; [congruence | cbn [length] in Hwf; lia].
Qed.

Lemma search_none_iff (prefix content : str) :
  search (assignment prefix) content = None <-> ~ has_assignment prefix content.
Proof.
  split.
  - intros Hnone (v & pre & post & -> & Hne & Hq).
    now apply (search_complete _ pre _ _ (match_at_value prefix v post Hne Hq)).
  - intros Hno.
    destruct (search (assignment prefix) content) as [m|] eqn:E; [|reflexivity].
    exfalso; apply Hno.
    apply search_sound in E as (a & b & -> & Hm).
    apply match_at_sound in Hm as (v & post & -> & Hne & Hq & _).
    exists v, a, post; repeat split; auto.
Qed.

End ReFacts.

(* ================================================================== *)
(** ** Facts about runs *)

Module RunFacts.
Import Re Py Script Props TextFacts ReFacts.

(** *** Output and call log only grow *)

Lemma extends_refl (st : state) : extends st st.
Proof. exists [], []; destruct st; simpl; now rewrite !app_nil_r. Qed.

Lemma extends_trans (a b c : state) : extends a b -> extends b c -> extends a c.
Proof.
  intros (o1 & e1 & ->) (o2 & e2 & ->); simpl.
  exists (o1 ++ o2), (e1 ++ e2); now rewrite !app_assoc.
Qed.

Lemma appends_ret {A} (a : A) : appends (ret a).
Proof. intros st; apply extends_refl. Qed.

Lemma appends_raise {A} (r : raised) : appends (@raise A r).
Proof. intros st; apply extends_refl. Qed.

Lemma appends_print (s : str) : appends (print s).
Proof.
  intros st; exists [s], []; simpl; now rewrite app_nil_r.
Qed.

Lemma appends_call (ev : event) (res : list event -> option exception) :
  appends (call ev res).
Proof.
  intros st; exists [], [ev]; unfold call.
  destruct (res (calls st)); simpl; now rewrite app_nil_r.
Qed.

Lemma appends_bind {A B} (m : M A) (k : A -> M B) :
  appends m -> (forall a, appends (k a)) -> appends (bind m k).
Proof.
  intros Hm Hk st; unfold bind.
  specialize (Hm st); destruct (m st) as [[a | r] st']; simpl in Hm.
  - eapply extends_trans; [exact Hm | apply Hk].
  - exact Hm.
Qed.

Lemma appends_try_except {A} (body : M A) (handler : raised -> option (M A)) :
  appends body ->
  (forall r h, handler r = Some h -> appends h) ->
  appends (try_except body handler).
Proof.
  intros Hb Hh st; unfold try_except.
  specialize (Hb st); destruct (body st) as [[a | r] st']; simpl in Hb.
  - exact Hb.
  - destruct (handler r) as [h|] eqn:E; [|exact Hb].
    eapply extends_trans; [exact Hb | eapply Hh; exact E].
Qed.

Create HintDb grow.

(** From [Some h' = Some h], replace the handler [h] by its body. *)
Ltac caught H :=
  match type of H with
  | Some ?body = Some ?h =>
      let E := fresh in
      assert (E : h = body) by congruence; clear H; subst h
  end.

#[local] Hint Resolve appends_ret appends_raise appends_print appends_call : grow.

Lemma appends_print_all (lines : list str) : appends (print_all lines).
Proof.
  induction lines; simpl; [auto with grow|].
  apply appends_bind; auto with grow.
Qed.

Lemma appends_step (w : world) (i : nat) (sql : str) : appends (step w i sql).
Proof.
  unfold step, rpc_execute.
  destruct (is_empty (strip sql)); [auto with grow|].
  apply appends_try_except.
  - apply appends_bind; [|intros _; auto with grow].
    apply appends_bind; [auto with grow | intros _].
    apply appends_bind; [auto with grow | intros _; auto with grow].
  - intros [c | e] h; cbn [except_Exception]; [discriminate|].
    intros H; caught H.
    apply appends_try_except; auto with grow.
    intros r h H; unfold except_all in H; caught H; auto with grow.
Qed.

Lemma appends_for_each (w : world) (scripts : list str) :
  forall i, appends (for_each w i scripts).
Proof.
  induction scripts as [|sql more IH]; intros i; simpl; [auto with grow|].
  apply appends_bind; [apply appends_step | auto].
Qed.

Lemma appends_setup (w : world) (url key : value) : appends (setup w url key).
Proof.
  unfold setup.
  do 3 (apply appends_bind; [auto with grow | intros _]).
  apply appends_bind; [apply appends_for_each | intros _].
  apply appends_print_all.
Qed.

Lemma appends_after_credentials (w : world) (url key : value) :
  appends (after_credentials w url key).
Proof.
  unfold after_credentials.
  apply appends_bind; [|intros _; apply appends_print_all].
  apply appends_try_except; [apply appends_setup|].
  intros [c | e] h; cbn [except_ImportError_Exception]; [discriminate|].
  destruct (class_of e); intros H; caught H;
    (apply appends_bind; [apply appends_print_all | intros _; apply appends_raise]).
Qed.

(** *** The two extractions *)

Lemma url_re_assignment : url_re = assignment url_prefix.
Proof. reflexivity. Qed.

Lemma key_re_assignment : key_re = assignment key_prefix.
Proof. reflexivity. Qed.

Lemma url_prefix_head_unique : head_unique url_prefix = true.
Proof. reflexivity. Qed.

Lemma key_prefix_head_unique : head_unique key_prefix = true.
Proof. reflexivity. Qed.

Lemma group1_or_None_sound (prefix content v : str) :
  group1_or_None (search (assignment prefix) content) = Some v ->
  is_empty v = false /\ quote_free v = true /\
  exists pre post, content = pre ++ prefix ++ v ++ quote :: post.
Proof.
  destruct (search (assignment prefix) content) as [m|] eqn:E; [|discriminate].
  simpl; intros H; injection H as <-.
  apply search_sound in E as (a & b & -> & Hm).
  apply match_at_sound in Hm as (v & post & -> & Hne & Hq & ->).
  repeat split; auto; now exists a, post.
Qed.

(** An extracted value is never empty: [not v] is false for it. *)
Lemma extracted_url_true (content u : str) :
  supabase_url content = Some u -> py_not (Some u) = false.
Proof. intros H; apply (group1_or_None_sound url_prefix) in H; tauto. Qed.

Lemma extracted_key_true (content k : str) :
  supabase_key content = Some k -> py_not (Some k) = false.
Proof. intros H; apply (group1_or_None_sound key_prefix) in H; tauto. Qed.

(** *** The start of the script *)

Lemma run_no_credentials (w : world) (content : str) :
  read_file w config_path = inl content ->
  py_not (supabase_url content) || py_not (supabase_key content) = true ->
  run w = (Raise (SystemExit 1), mkState [msg_no_credentials] []).
Proof.
  intros Hread Hnot; unfold run, main, open_read, bind.
  rewrite Hread; unfold ret at 1; rewrite Hnot; reflexivity.
Qed.

Lemma run_credentials (w : world) (content u k : str) :
  read_file w config_path = inl content ->
  supabase_url content = Some u ->
  supabase_key content = Some k ->
  run w = after_credentials w (Some u) (Some k)
            (mkState [msg_found_url (Some u); msg_found_key (slice_to 50 k)] []).
Proof.
  intros Hread Hu Hk; unfold run, main, open_read, bind.
  rewrite Hread; unfold ret at 1; rewrite Hu, Hk.
  rewrite (extracted_url_true _ _ Hu), (extracted_key_true _ _ Hk).
  reflexivity.
Qed.

(** *** The loop *)

Lemma print_all_spec (lines : list str) (st : state) :
  print_all lines st = (Ret tt, mkState (stdout st ++ lines) (calls st)).
Proof.
  revert st; induction lines as [|l more IH]; intros st.
  - destruct st; cbn [print_all ret stdout calls]; now rewrite app_nil_r.
  - cbn [print_all]; unfold bind, print; rewrite IH.
    cbn [stdout calls]; now rewrite <- app_assoc.
Qed.

Lemma step_blank (w : world) (i : nat) (sql : str) (st : state) :
  is_empty (strip sql) = true -> step w i sql st = (Ret tt, st).
Proof. intros H; unfold step; now rewrite H. Qed.

(** For a statement that is not blank the step does what [attempt] says
    and prints one line; it returns normally whatever was raised. *)
Lemma step_attempt (w : world) (i : nat) (sql : str) (st : state) :
  is_empty (strip sql) = false ->
  step w i sql st =
  (Ret tt,
   mkState (stdout st ++
            [report ((i, strip sql), snd (attempt w (calls st) (strip sql)))])
           (calls st ++ fst (attempt w (calls st) (strip sql)))).
Proof.
  intros H; unfold step; rewrite H.
  unfold rpc_execute; unfold try_except, bind, call, attempt, report, rpc_event.
  cbn [stdout calls].
  destruct (postgrest_client w (calls st)); [reflexivity|].
  cbn [stdout calls].
  destruct (rpc w (calls st ++ [LookupClient]) (lit "execute_sql")
              [(lit "sql", strip sql)]);
    [cbn [fst snd stdout calls]; now rewrite <- app_assoc|].
  cbn [stdout calls]; rewrite <- (app_assoc (calls st)); cbn [app].
  destruct (execute w (calls st ++
              [LookupClient; Rpc (lit "execute_sql") [(lit "sql", strip sql)]]));
    cbn [fst snd stdout calls]; now rewrite <- app_assoc.
Qed.

Lemma attempts_cons (i : nat) (sql : str) (more : list str) :
  attempts i (sql :: more) =
  if is_empty (strip sql) then attempts (S i) more
  else (i, strip sql) :: attempts (S i) more.
Proof.
  unfold attempts; cbn [enumerate map filter fst snd].
  destruct (is_empty (strip sql)); reflexivity.
Qed.

(** The loop invariant: whatever the environment answers, the loop returns
    normally, has done for each non-blank statement, in order, what
    [attempt] says, and has printed one line for each. *)
Lemma for_each_spec (w : world) (scripts : list str) :
  forall i st,
    for_each w i scripts st =
    (Ret tt,
     mkState
       (stdout st ++
        map report
            (combine (attempts i scripts)
                     (map snd (replay w (calls st) (map snd (attempts i scripts))))))
       (calls st ++
        concat (map fst (replay w (calls st) (map snd (attempts i scripts)))))).
Proof.
  induction scripts as [|sql more IH]; intros i st.
  - destruct st; cbn; now rewrite !app_nil_r.
  - cbn [for_each]; unfold bind; rewrite attempts_cons.
    destruct (is_empty (strip sql)) eqn:E.
    + rewrite (step_blank _ _ _ _ E); apply IH.
    + rewrite (step_attempt _ _ _ _ E), IH.
      cbn [stdout calls replay combine map concat fst snd].
      now rewrite <- !app_assoc.
Qed.

Lemma replay_length (w : world) (texts : list str) :
  forall history, length (replay w history texts) = length texts.
Proof. induction texts; intros history; cbn [replay length]; auto. Qed.

Lemma replay_nth (w : world) (texts : list str) :
  forall history n t,
    nth_error texts n = Some t ->
    nth_error (replay w history texts) n =
    Some (attempt w
            (history ++ concat (map fst (firstn n (replay w history texts)))) t).
Proof.
  induction texts as [|t0 more IH]; intros history n t Hn.
  - destruct n; discriminate.
  - destruct n as [|n]; cbn [nth_error replay firstn map concat] in *.
    + injection Hn as ->; now rewrite app_nil_r.
    + rewrite (IH _ _ _ Hn), <- app_assoc; reflexivity.
Qed.

(** *** One attempt *)



(** An attempt makes one lookup, and the call of [rpc] exactly when the
    lookup returned. *)
Lemma attempt_lookups (w : world) (history : list event) (sql : str) :
  filter is_lookup (fst (attempt w history sql)) = [LookupClient].
Proof.
  unfold attempt.
  destruct (postgrest_client w history); [reflexivity|].
  destruct (rpc w (history ++ [LookupClient]) (lit "execute_sql")
              [(lit "sql", sql)]); [reflexivity|].
  destruct (execute w (history ++ [LookupClient; rpc_event sql])); reflexivity.
Qed.

Lemma attempt_rpc_calls (w : world) (history : list event) (sql : str) :
  filter is_rpc (fst (attempt w history sql)) =
  match postgrest_client w history with
  | None => [rpc_event sql]
  | Some _ => []
  end.
Proof.
  unfold attempt.
  destruct (postgrest_client w history); [reflexivity|].
  destruct (rpc w (history ++ [LookupClient]) (lit "execute_sql")
              [(lit "sql", sql)]); [reflexivity|].
  destruct (execute w (history ++ [LookupClient; rpc_event sql])); reflexivity.
Qed.

Lemma attempt_no_constructor (w : world) (history : list event) (sql : str) :
  filter is_create_client (fst (attempt w history sql)) = [].
Proof.
  unfold attempt.
  destruct (postgrest_client w history); [reflexivity|].
  destruct (rpc w (history ++ [LookupClient]) (lit "execute_sql")
              [(lit "sql", sql)]); [reflexivity|].
  destruct (execute w (history ++ [LookupClient; rpc_event sql])); reflexivity.
Qed.

(** *** The attempts in turn *)



Lemma replay_lookups (w : world) (texts : list str) :
  forall history,
    filter is_lookup (concat (map fst (replay w history texts))) =
    map (fun _ => LookupClient) texts.
Proof.
  induction texts as [|t more IH]; intros history; [reflexivity|].
  cbn [replay map concat]; now rewrite filter_app, attempt_lookups, IH.
Qed.

Lemma replay_no_constructor (w : world) (texts : list str) :
  forall history,
    filter is_create_client (concat (map fst (replay w history texts))) = [].
Proof.
  induction texts as [|t more IH]; intros history; [reflexivity|].
  cbn [replay map concat]; now rewrite filter_app, attempt_no_constructor, IH.
Qed.


Lemma attempt_only_statement_steps (w : world) (history : list event) (sql : str) :
  filter (fun ev => negb (is_statement_step ev)) (fst (attempt w history sql)) = [].
Proof.
  unfold attempt.
  destruct (postgrest_client w history); [reflexivity|].
  destruct (rpc w (history ++ [LookupClient]) (lit "execute_sql")
              [(lit "sql", sql)]); [reflexivity|].
  destruct (execute w (history ++ [LookupClient; rpc_event sql])); reflexivity.
Qed.

Lemma replay_only_statement_steps (w : world) (texts : list str) :
  forall history,
    filter (fun ev => negb (is_statement_step ev))
           (concat (map fst (replay w history texts))) = [].
Proof.
  induction texts as [|t more IH]; intros history; [reflexivity|].
  cbn [replay map concat].
  now rewrite filter_app, attempt_only_statement_steps, IH.
Qed.

(** When no lookup raises, [rpc] is called for every text, in order. *)
Lemma replay_rpc_calls_all (w : world) (texts : list str) :
  (forall history, postgrest_client w history = None) ->
  forall history,
    filter is_rpc (concat (map fst (replay w history texts))) =
    map rpc_event texts.
Proof.
  intros Hok; induction texts as [|t more IH]; intros history; [reflexivity|].
  cbn [replay map concat].
  now rewrite filter_app, attempt_rpc_calls, Hok, IH.
Qed.

(** When every lookup raises, [rpc] is never called. *)
Lemma replay_rpc_calls_none (w : world) (texts : list str) :
  (forall history, postgrest_client w history <> None) ->
  forall history,
    filter is_rpc (concat (map fst (replay w history texts))) = [].
Proof.
  intros Hno; induction texts as [|t more IH]; intros history; [reflexivity|].
  cbn [replay map concat]; rewrite filter_app, attempt_rpc_calls, IH.
  destruct (postgrest_client w history) eqn:E; [reflexivity | now apply Hno in E].
Qed.

(** None of the statements of the script is blank. *)
Lemma attempts_sql_scripts :
  attempts 1 sql_scripts = combine (seq 1 8) (map strip sql_scripts).
Proof. vm_compute; reflexivity. Qed.

Lemma attempts_sql_scripts_texts :
  map snd (attempts 1 sql_scripts) = map strip sql_scripts.
Proof. vm_compute; reflexivity. Qed.

(** The statements as they are sent are the literal texts. *)
Lemma strip_sql_scripts : map strip sql_scripts = stripped_statements.
Proof. vm_compute; reflexivity. Qed.

(** *** The body of the outer [try] *)

Lemma setup_import_raises (w : world) (url key : value) (e : exception) (st : state) :
  import_supabase w = Some e ->
  setup w url key st = (Raise (Exc e), mkState (stdout st) (calls st ++ [ImportSupabase])).
Proof.
  intros H; unfold setup, bind, call; now rewrite H.
Qed.

Lemma setup_client_raises (w : world) (url key : value) (e : exception) (st : state) :
  import_supabase w = None ->
  create_client w url key = Some e ->
  setup w url key st =
  (Raise (Exc e), mkState (stdout st) (calls st ++ client_calls url key)).
Proof.
  intros Hi Hc; unfold setup, bind, call; rewrite Hi.
  cbn [stdout calls]; rewrite Hc, <- app_assoc; reflexivity.
Qed.

Lemma setup_returns (w : world) (url key : value) (st : state) :
  import_supabase w = None ->
  create_client w url key = None ->
  setup w url key st =
  (Ret tt,
   mkState
     (stdout st ++ [msg_creating] ++
      map report
        (combine (attempts 1 sql_scripts)
                 (map snd (replay w (calls st ++ client_calls url key)
                                  (map strip sql_scripts)))) ++
      msgs_initiated)
     (calls st ++ client_calls url key ++
      concat (map fst (replay w (calls st ++ client_calls url key)
                              (map strip sql_scripts))))).
Proof.
  intros Hi Hc; unfold setup, bind, call at 1 2; rewrite Hi.
  cbn [stdout calls]; rewrite Hc.
  unfold print at 1; cbn [stdout calls].
  rewrite for_each_spec, print_all_spec; cbn [stdout calls].
  rewrite attempts_sql_scripts_texts.
  unfold client_calls; now rewrite <- !app_assoc.
Qed.

(** *** The three ways the script ends once the credentials are found *)

Lemma after_credentials_import_error
    (w : world) (url key : value) (e : exception) (st : state) :
  import_supabase w = Some e -> class_of e = ImportError ->
  after_credentials w url key st =
  (Raise (SystemExit 1),
   mkState (stdout st ++ msgs_import_failed) (calls st ++ [ImportSupabase])).
Proof.
  intros Hi Hc; unfold after_credentials, bind at 1, try_except.
  rewrite (setup_import_raises _ _ _ _ _ Hi).
  cbn [except_ImportError_Exception]; rewrite Hc.
  unfold bind; rewrite print_all_spec; reflexivity.
Qed.

Lemma after_credentials_returns (w : world) (url key : value) (st : state) :
  import_supabase w = None ->
  create_client w url key = None ->
  after_credentials w url key st =
  (Ret tt,
   mkState
     (stdout st ++ [msg_creating] ++
      map report
        (combine (attempts 1 sql_scripts)
                 (map snd (replay w (calls st ++ client_calls url key)
                                  (map strip sql_scripts)))) ++
      msgs_initiated ++ msgs_complete)
     (calls st ++ client_calls url key ++
      concat (map fst (replay w (calls st ++ client_calls url key)
                              (map strip sql_scripts))))).
Proof.
  intros Hi Hc; unfold after_credentials, bind at 1, try_except.
  rewrite (setup_returns _ _ _ _ Hi Hc), print_all_spec.
  cbn [stdout calls]; now rewrite <- !app_assoc.
Qed.

(** *** A run that gets to the loop *)

Lemma run_reaches_executor (w : world) (u k : str) :
  reaches_executor w u k ->
  run w =
  (Ret tt,
   mkState
     (found_lines u k ++ [msg_creating] ++ step_lines w u k ++
      msgs_initiated ++ msgs_complete)
     (client_calls (Some u) (Some k) ++ concat (map fst (loop_log w u k)))).
Proof.
  intros (content & Hread & Hu & Hk & Hi & Hc).
  rewrite (run_credentials _ _ _ _ Hread Hu Hk).
  rewrite (after_credentials_returns _ _ _ _ Hi Hc).
  reflexivity.
Qed.

(** The calls of [rpc] in a run that gets to the loop. *)
Lemma rpc_calls_reaches_executor (w : world) (u k : str) :
  reaches_executor w u k ->
  rpc_calls (snd (run w)) =
  filter is_rpc (concat (map fst (loop_log w u k))).
Proof.
  intros H; rewrite (run_reaches_executor _ _ _ H).
  unfold rpc_calls; cbn [snd calls].
  unfold client_calls; cbn [app filter is_rpc]; reflexivity.
Qed.

Lemma rpc_calls_all (w : world) (u k : str) :
  reaches_executor w u k ->
  (forall history, postgrest_client w history = None) ->
  rpc_calls (snd (run w)) = map execute_sql_call stripped_statements.
Proof.
  intros H Hok; rewrite (rpc_calls_reaches_executor _ _ _ H).
  unfold loop_log; rewrite (replay_rpc_calls_all _ _ Hok), strip_sql_scripts.
  reflexivity.
Qed.

(** *** Indexing the attempts and their outcomes *)

Lemma sql_scripts_nonblank : forallb nonblank sql_scripts = true.
Proof. vm_compute; reflexivity. Qed.

Lemma attempts_nth (scripts : list str) :
  forallb nonblank scripts = true ->
  forall i n sql,
    nth_error scripts n = Some sql ->
    nth_error (attempts i scripts) n = Some (i + n, strip sql).
Proof.
  induction scripts as [|s more IH]; intros Hnb i n sql Hn.
  - destruct n; discriminate.
  - cbn [forallb] in Hnb; apply andb_true_iff in Hnb as [Hs Hmore].
    unfold nonblank in Hs; apply negb_true_iff in Hs.
    rewrite attempts_cons, Hs.
    destruct n as [|n]; cbn [nth_error] in *.
    + injection Hn as ->; now rewrite Nat.add_0_r.
    + rewrite (IH Hmore (S i) n sql Hn); do 2 f_equal; lia.
Qed.

Lemma attempts_length (scripts : list str) :
  forallb nonblank scripts = true ->
  forall i, length (attempts i scripts) = length scripts.
Proof.
  induction scripts as [|s more IH]; intros Hnb i; [reflexivity|].
  cbn [forallb] in Hnb; apply andb_true_iff in Hnb as [Hs Hmore].
  unfold nonblank in Hs; apply negb_true_iff in Hs.
  rewrite attempts_cons, Hs; cbn [length]; now rewrite IH.
Qed.

Lemma attempts_nth_inv (scripts : list str) :
  forallb nonblank scripts = true ->
  forall i n a,
    nth_error (attempts i scripts) n = Some a ->
    exists sql, nth_error scripts n = Some sql /\ a = (i + n, strip sql).
Proof.
  intros Hnb i n a Hn.
  assert (Hlt : n < length scripts).
  { rewrite <- (attempts_length _ Hnb i); apply nth_error_Some; congruence. }
  destruct (nth_error scripts n) as [sql|] eqn:E;
    [|apply nth_error_None in E; lia].
  exists sql; split; [reflexivity|].
  rewrite (attempts_nth _ Hnb i n sql E) in Hn; congruence.
Qed.

Lemma combine_nth_error {A B} (l1 : list A) (l2 : list B) :
  forall n a b,
    nth_error l1 n = Some a -> nth_error l2 n = Some b ->
    nth_error (combine l1 l2) n = Some (a, b).
Proof.
  revert l2; induction l1 as [|x l1 IH]; intros l2 n a b H1 H2.
  - destruct n; discriminate.
  - destruct l2 as [|y l2]; [destruct n; discriminate|].
    destruct n as [|n]; cbn [nth_error combine] in *.
    + congruence.
    + now apply IH.
Qed.

(** What the loop does for statement number [n] (from 0) of a run that
    gets to it, and the line it prints. *)
Lemma step_line_nth (w : world) (u k : str) (n : nat) (sql : str) :
  reaches_executor w u k ->
  nth_error sql_scripts n = Some sql ->
  nth_error (loop_log w u k) n =
    Some (attempt w (history_at w u k n) (strip sql)) /\
  nth_error (stdout (snd (run w))) (3 + n) =
    Some (report ((S n, strip sql),
                  snd (attempt w (history_at w u k n) (strip sql)))).
Proof.
  intros Hreach Hn.
  assert (Hlog : nth_error (loop_log w u k) n =
                 Some (attempt w (history_at w u k n) (strip sql))).
  { unfold loop_log, history_at, loop_log.
    apply replay_nth; now apply map_nth_error. }
  split; [exact Hlog|].
  rewrite (run_reaches_executor _ _ _ Hreach).
  cbn [snd stdout found_lines app nth_error Nat.add].
  pose proof (attempts_nth _ sql_scripts_nonblank 1 n sql Hn) as Ha.
  pose proof (map_nth_error snd _ _ Hlog) as Ho.
  pose proof (combine_nth_error _ _ _ _ _ Ha Ho) as Hc.
  unfold step_lines; rewrite nth_error_app1.
  - rewrite (map_nth_error report _ _ Hc); reflexivity.
  - apply nth_error_Some; rewrite (map_nth_error report _ _ Hc); discriminate.
Qed.

Lemma step_lines_length (w : world) (u k : str) :
  length (step_lines w u k) = 8.
Proof.
  unfold step_lines, loop_log.
  rewrite length_map, length_combine, length_map, replay_length.
  reflexivity.
Qed.

(** *** [strip] removes white space and nothing else *)




(** *** Every way a run ends *)

Lemma run_unreadable (w : world) (e : exception) :
  read_file w config_path = inr e -> run w = (Raise (Exc e), initial).
Proof.
  intros H; unfold run, main, open_read, bind; now rewrite H.
Qed.

Lemma after_credentials_import_raises
    (w : world) (url key : value) (e : exception) (st : state) :
  import_supabase w = Some e ->
  after_credentials w url key st =
  (Raise (SystemExit 1),
   mkState (stdout st ++ handler_lines e) (calls st ++ [ImportSupabase])).
Proof.
  intros Hi; unfold after_credentials, bind at 1, try_except.
  rewrite (setup_import_raises _ _ _ _ _ Hi).
  cbn [except_ImportError_Exception]; unfold handler_lines.
  destruct (class_of e); unfold bind; rewrite print_all_spec; reflexivity.
Qed.

Lemma after_credentials_client_raises
    (w : world) (url key : value) (e : exception) (st : state) :
  import_supabase w = None ->
  create_client w url key = Some e ->
  after_credentials w url key st =
  (Raise (SystemExit 1),
   mkState (stdout st ++ handler_lines e) (calls st ++ client_calls url key)).
Proof.
  intros Hi Hc; unfold after_credentials, bind at 1, try_except.
  rewrite (setup_client_raises _ _ _ _ _ Hi Hc).
  cbn [except_ImportError_Exception]; unfold handler_lines.
  destruct (class_of e); unfold bind; rewrite print_all_spec; reflexivity.
Qed.

Lemma run_ending (w : world) : ending w.
Proof.
  destruct (read_file w config_path) as [content | e] eqn:Hread;
    [|exact (Unreadable w e Hread (run_unreadable w e Hread))].
  destruct (supabase_url content) as [u|] eqn:Hu.
  2:{ apply (NoCredentials w content Hread); [now left|].
      apply (run_no_credentials w content Hread); now rewrite Hu. }
  destruct (supabase_key content) as [k|] eqn:Hk.
  2:{ apply (NoCredentials w content Hread); [now right|].
      apply (run_no_credentials w content Hread); rewrite Hk; apply orb_true_r. }
  pose proof (run_credentials w content u k Hread Hu Hk) as Hrun.
  destruct (import_supabase w) as [e|] eqn:Hi.
  { apply (ImportFailed w content u k e Hread Hu Hk Hi).
    now rewrite Hrun, (after_credentials_import_raises _ _ _ _ _ Hi). }
  destruct (create_client w (Some u) (Some k)) as [e|] eqn:Hc.
  { apply (ClientFailed w content u k e Hread Hu Hk Hi Hc).
    now rewrite Hrun, (after_credentials_client_raises _ _ _ _ _ Hi Hc). }
  assert (Hreach : reaches_executor w u k) by (exists content; auto).
  apply (Completed w u k Hreach).
  now rewrite (run_reaches_executor _ _ _ Hreach).
Qed.

(** *** More about the loop *)

(** The texts of the attempts are the stripped statements that are not
    empty. *)
Lemma attempts_texts (scripts : list str) :
  forall i,
    map snd (attempts i scripts) =
    filter (fun sql => negb (is_empty sql)) (map strip scripts).
Proof.
  induction scripts as [|s more IH]; intros i; [reflexivity|].
  rewrite attempts_cons; cbn [map filter].
  destruct (is_empty (strip s)); cbn [negb map snd]; now rewrite IH.
Qed.

Lemma attempts_count (scripts : list str) :
  forall i, length (attempts i scripts) = length (filter nonblank scripts).
Proof.
  induction scripts as [|s more IH]; intros i; [reflexivity|].
  rewrite attempts_cons; cbn [filter]; unfold nonblank at 1.
  destruct (is_empty (strip s)); cbn [negb length]; now rewrite IH.
Qed.

(** A statement that is not blank is attempted under the number of its
    place in the list, blank statements before it included. *)
Lemma attempts_position (scripts : list str) :
  forall i n sql,
    nth_error scripts n = Some sql -> nonblank sql = true ->
    In (i + n, strip sql) (attempts i scripts).
Proof.
  induction scripts as [|s more IH]; intros i n sql Hn Hnb.
  - destruct n; discriminate.
  - rewrite attempts_cons.
    destruct n as [|n]; cbn [nth_error] in Hn.
    + injection Hn as ->; unfold nonblank in Hnb; apply negb_true_iff in Hnb.
      rewrite Hnb, Nat.add_0_r; now left.
    + replace (i + S n) with (S i + n) by lia.
      destruct (is_empty (strip s)); [|right]; now apply IH.
Qed.

Lemma in_combine_results {A B} (l1 : list A) (l2 : list B) (a : A) :
  length l1 = length l2 -> In a l1 -> exists b, In (a, b) (combine l1 l2).
Proof.
  revert l2; induction l1 as [|x l1 IH]; intros [|y l2] Hlen Hin;
    try discriminate; [destruct Hin|].
  cbn [combine]; destruct Hin as [-> | Hin].
  - exists y; now left.
  - injection Hlen as Hlen; destruct (IH l2 Hlen Hin) as (b & Hb).
    exists b; now right.
Qed.

(** *** What [strip] leaves at the two ends *)






End RunFacts.

(* ================================================================== *)
(** ** Facts about the statement list *)

Module ScriptFacts.
Import Script Props.

Lemma followsb_from_sound (prerequisite dependent : str -> bool) (l : list str) :
  forall seen,
    followsb_from seen prerequisite dependent l = true ->
    forall j s, nth_error l j = Some s -> dependent s = true ->
      seen = true \/
      exists i p, i < j /\ nth_error l i = Some p /\ prerequisite p = true.
Proof.
  induction l as [|x l IH]; intros seen H j s Hj Hd.
  - destruct j; discriminate.
  - cbn [followsb_from] in H; apply andb_true_iff in H as [Hx Hl].
    destruct j as [|j]; cbn [nth_error] in Hj.
    + injection Hj as ->; rewrite Hd in Hx; now left.
    + destruct (IH _ Hl j s Hj Hd) as [Hseen | (i & p & Hi & Hp & Hpre)].
      * apply orb_true_iff in Hseen as [Hseen | Hpx]; [now left|].
        right; exists 0, x; repeat split; [lia | exact Hpx].
      * right; exists (S i), p; repeat split; [lia | exact Hp | exact Hpre].
Qed.

Lemma followsb_sound (prerequisite dependent : str -> bool) (l : list str) :
  followsb prerequisite dependent l = true -> follows prerequisite dependent l.
Proof.
  intros H j s Hj Hd.
  destruct (followsb_from_sound _ _ _ _ H j s Hj Hd) as [? | ?];
    [discriminate | assumption].
Qed.

End ScriptFacts.

(* ================================================================== *)
(** ** Properties of the script *)

Import Re Py Script Props TextFacts ReFacts RunFacts ScriptFacts.

(** C1, as the specification words it, fails: the list [sql_scripts] does
    not hold nine statements. *)
Lemma sql_scripts_not_nine : length sql_scripts <> 9.
Proof. vm_compute; discriminate. Qed.

(** C1, amended: [sql_scripts] holds exactly eight statements, in a fixed
    order (create table, enable security and two policies for the profile
    table, then the same for the check-ins table), and it does not depend
    on the credentials: whatever they are, the loop goes through the same
    eight texts, and two runs whose client lookups return send the same
    calls. *)
Theorem sql_scripts_fixed :
  length sql_scripts = 8 /\
  map classify sql_scripts =
    [ Some (CreateTable Profile); Some (EnableSecurity Profile);
      Some (SecurityPolicy Profile); Some (SecurityPolicy Profile);
      Some (CreateTable Checkins); Some (EnableSecurity Checkins);
      Some (SecurityPolicy Checkins); Some (SecurityPolicy Checkins) ] /\
  (forall w u k,
      reaches_executor w u k ->
      calls (snd (run w)) =
      client_calls (Some u) (Some k) ++
      concat (map fst (replay w (client_calls (Some u) (Some k))
                              stripped_statements))) /\
  forall w1 w2 u1 k1 u2 k2,
    reaches_executor w1 u1 k1 -> reaches_executor w2 u2 k2 ->
    (forall history, postgrest_client w1 history = None) ->
    (forall history, postgrest_client w2 history = None) ->
    rpc_calls (snd (run w1)) = rpc_calls (snd (run w2)).
Proof.
  split; [reflexivity|]; split; [vm_compute; reflexivity|]; split.
  - intros w u k H; rewrite (run_reaches_executor _ _ _ H).
    unfold loop_log; now rewrite strip_sql_scripts.
  - intros w1 w2 u1 k1 u2 k2 H1 H2 Hok1 Hok2.
    now rewrite (rpc_calls_all _ _ _ H1 Hok1), (rpc_calls_all _ _ _ H2 Hok2).
Qed.

Lemma sql_scripts_fixed_witness :
  rpc_calls (snd (run (world_ok sample_config))) =
  rpc_calls (snd (run (world_rpc_missing (config_with (lit "https://y.supabase.co") key51)))).
Proof.
  apply (proj2 (proj2 (proj2 sql_scripts_fixed))
           (world_ok sample_config)
           (world_rpc_missing (config_with (lit "https://y.supabase.co") key51))
           sample_url sample_key (lit "https://y.supabase.co") key51).
  - exists sample_config; repeat split; vm_compute; reflexivity.
  - exists (config_with (lit "https://y.supabase.co") key51);
      repeat split; vm_compute; reflexivity.
  - reflexivity.
  - reflexivity.
Defined.




(** C3: when the URL pattern or the key pattern matches nowhere in the
    configuration file, the script prints the error line and exits with
    status 1, having made no call at all: the client constructor is never
    called and no RPC is sent. *)
Theorem no_credentials_exit_one (w : world) (content : str) :
  read_file w config_path = inl content ->
  search url_re content = None \/ search key_re content = None ->
  run w = (Raise (SystemExit 1), mkState [msg_no_credentials] []) /\
  exit_status (fst (run w)) = 1%Z /\
  constructor_calls (snd (run w)) = [] /\
  rpc_calls (snd (run w)) = [] /\
  stdout (snd (run w)) =
    [ 10060%N :: lit " ERROR: Could not extract Supabase credentials from supabase-config.js" ].
Proof.
  intros Hread Hnone.
  assert (Hrun : run w = (Raise (SystemExit 1), mkState [msg_no_credentials] [])).
  { apply (run_no_credentials w content Hread).
    unfold supabase_url, supabase_key.
    destruct Hnone as [-> | ->]; cbn [group1_or_None py_not];
      [reflexivity | apply orb_true_r]. }
  rewrite Hrun; repeat split.
Qed.

Lemma no_credentials_exit_one_witness :
  run (world_ok (lit "const SUPABASE_URL = 'https://x.supabase.co'")) =
    (Raise (SystemExit 1), mkState [msg_no_credentials] []) /\
  exit_status (fst (run (world_ok (lit "const SUPABASE_URL = 'https://x.supabase.co'")))) = 1%Z /\
  constructor_calls (snd (run (world_ok (lit "const SUPABASE_URL = 'https://x.supabase.co'")))) = [] /\
  rpc_calls (snd (run (world_ok (lit "const SUPABASE_URL = 'https://x.supabase.co'")))) = [] /\
  stdout (snd (run (world_ok (lit "const SUPABASE_URL = 'https://x.supabase.co'")))) =
    [ 10060%N :: lit " ERROR: Could not extract Supabase credentials from supabase-config.js" ].
Proof.
  apply (no_credentials_exit_one
           (world_ok (lit "const SUPABASE_URL = 'https://x.supabase.co'"))
           (lit "const SUPABASE_URL = 'https://x.supabase.co'")).
  - reflexivity.
  - right; vm_compute; reflexivity.
Defined.

(** C4: when the credentials are found and importing the client library
    raises [ImportError], the script prints the six lines that tell how to
    run the SQL by hand in the dashboard and exits with status 1; the
    client is never built and no RPC is sent. *)
Theorem import_error_exit_one (w : world) (content u k : str) (e : exception) :
  read_file w config_path = inl content ->
  supabase_url content = Some u ->
  supabase_key content = Some k ->
  import_supabase w = Some e ->
  class_of e = ImportError ->
  exit_status (fst (run w)) = 1%Z /\
  stdout (snd (run w)) =
    [ 9989%N :: lit " Found Supabase URL: " ++ u;
      9989%N :: lit " Found Supabase Key: " ++ firstn 50 k ++ lit "...";
      10%N :: 9888%N :: 65039%N :: lit "  Supabase client import failed.";
      lit "Please run the SQL manually in Supabase dashboard:";
      10%N :: lit "1. Go to Supabase Dashboard";
      lit "2. Click 'SQL Editor' " ++ 8594%N :: lit " 'New Query'";
      lit "3. Copy and paste the SQL from SUPABASE_SETUP.md";
      lit "4. Click 'Run'" ] /\
  constructor_calls (snd (run w)) = [] /\
  rpc_calls (snd (run w)) = [].
Proof.
  intros Hread Hu Hk Hi Hc.
  rewrite (run_credentials _ _ _ _ Hread Hu Hk).
  rewrite (after_credentials_import_error _ _ _ _ _ Hi Hc).
  repeat split.
Qed.

Lemma import_error_exit_one_witness :
  exit_status (fst (run (world_no_client sample_config))) = 1%Z /\
  stdout (snd (run (world_no_client sample_config))) =
    [ 9989%N :: lit " Found Supabase URL: " ++ sample_url;
      9989%N :: lit " Found Supabase Key: " ++ firstn 50 sample_key ++ lit "...";
      10%N :: 9888%N :: 65039%N :: lit "  Supabase client import failed.";
      lit "Please run the SQL manually in Supabase dashboard:";
      10%N :: lit "1. Go to Supabase Dashboard";
      lit "2. Click 'SQL Editor' " ++ 8594%N :: lit " 'New Query'";
      lit "3. Copy and paste the SQL from SUPABASE_SETUP.md";
      lit "4. Click 'Run'" ] /\
  constructor_calls (snd (run (world_no_client sample_config))) = [] /\
  rpc_calls (snd (run (world_no_client sample_config))) = [].
Proof.
  apply (import_error_exit_one (world_no_client sample_config) sample_config
           sample_url sample_key no_module);
    vm_compute; reflexivity.
Defined.

(** C5: in a run that gets to the loop, whatever the environment answers,
    the loop takes the statements of the list one by one, in list order,
    each exactly once: for statement [n] it does what [attempt] says (one
    lookup of the client, then the call of [rpc] with the stripped text,
    then [execute], stopping where something raises) and prints one line,
    [Step n+1: Success] when line 113 returned and [Step n+1: Attempting
    alternative execution...] when it raised, and goes on to the next
    statement in both cases; nothing else is done, and the exit status
    is 0. *)
Theorem loop_attempts_each_once (w : world) (u k : str) :
  reaches_executor w u k ->
  calls (snd (run w)) =
    client_calls (Some u) (Some k) ++ concat (map fst (loop_log w u k)) /\
  length (filter is_lookup (calls (snd (run w)))) = length sql_scripts /\
  (forall n sql,
      nth_error sql_scripts n = Some sql ->
      nth_error (loop_log w u k) n =
        Some (attempt w (history_at w u k n) (strip sql)) /\
      nth_error (stdout (snd (run w))) (3 + n) =
        Some (if snd (attempt w (history_at w u k n) (strip sql))
              then 9989%N :: lit " Step " ++ str_of_nat (S n) ++ lit ": Success"
              else 9203%N :: lit " Step " ++ str_of_nat (S n) ++
                   lit ": Attempting alternative execution...")) /\
  length (stdout (snd (run w))) = 3 + length sql_scripts + 6 + 5 /\
  exit_status (fst (run w)) = 0%Z.
Proof.
  intros Hreach.
  split; [now rewrite (run_reaches_executor _ _ _ Hreach)|].
  split.
  { rewrite (run_reaches_executor _ _ _ Hreach); cbn [snd calls].
    unfold client_calls; cbn [app filter is_lookup].
    unfold loop_log; now rewrite replay_lookups, !length_map. }
  split.
  { intros n sql Hn.
    destruct (step_line_nth w u k n sql Hreach Hn) as [Hlog Hline].
    split; [exact Hlog|].
    rewrite Hline; unfold report; cbn [fst snd].
    destruct (snd (attempt w (history_at w u k n) (strip sql))); reflexivity. }
  rewrite (run_reaches_executor _ _ _ Hreach); cbn [fst snd stdout exit_status].
  split; [|reflexivity].
  rewrite !length_app, step_lines_length; reflexivity.
Qed.

Lemma loop_attempts_each_once_witness :
  nth_error (stdout (snd (run (world_mixed sample_config)))) (3 + 0) =
    Some (9989%N :: lit " Step 1: Success") /\
  nth_error (stdout (snd (run (world_mixed sample_config)))) (3 + 2) =
    Some (9203%N :: lit " Step 3: Attempting alternative execution...") /\
  nth_error (stdout (snd (run (world_mixed sample_config)))) (3 + 5) =
    Some (9203%N :: lit " Step 6: Attempting alternative execution...") /\
  nth_error (stdout (snd (run (world_mixed sample_config)))) (3 + 7) =
    Some (9989%N :: lit " Step 8: Success") /\
  length (filter is_lookup (calls (snd (run (world_mixed sample_config))))) = 8 /\
  exit_status (fst (run (world_mixed sample_config))) = 0%Z.
Proof.
  assert (Hreach : reaches_executor (world_mixed sample_config) sample_url sample_key)
    by (exists sample_config; repeat split; vm_compute; reflexivity).
  destruct (loop_attempts_each_once (world_mixed sample_config)
              sample_url sample_key Hreach) as (_ & Hlookups & Hlines & _ & Hexit).
  split; [exact (proj2 (Hlines 0 _ eq_refl))|].
  split; [exact (proj2 (Hlines 2 _ eq_refl))|].
  split; [exact (proj2 (Hlines 5 _ eq_refl))|].
  split; [exact (proj2 (Hlines 7 _ eq_refl))|].
  split; [exact Hlookups | exact Hexit].
Defined.
(** C6, as the specification words it, fails: a file may hold both
    assignments with quote-free values and the extractor not return them,
    because an empty value is not matched. *)
Lemma empty_value_not_extracted :
  ~ (forall content u k,
        first_assignment url_prefix u content ->
        first_assignment key_prefix k content ->
        quote_free u = true -> quote_free k = true ->
        supabase_url content = Some u /\ supabase_key content = Some k).
Proof.
  intros H.
  destruct (H (config_with [] (lit "k")) [] (lit "k")) as [Hu _];
    try reflexivity.
  - exists [], (nl ++ key_prefix ++ lit "k" ++ lit "'" ++ nl); split; reflexivity.
  - exists (url_prefix ++ lit "'" ++ nl), nl; split; vm_compute; reflexivity.
  - vm_compute in Hu; discriminate.
Qed.

(** C6, amended: when the file holds [const SUPABASE_URL = 'u'] and
    [const SUPABASE_ANON_KEY = 'k'] with [u] and [k] non-empty and free of
    apostrophes, each at the first place where its [const NAME = '] occurs,
    the extractor returns exactly [u] and [k]. *)
Theorem extraction_exact (content u k : str) :
  first_assignment url_prefix u content ->
  first_assignment key_prefix k content ->
  is_empty u = false -> is_empty k = false ->
  quote_free u = true -> quote_free k = true ->
  supabase_url content = Some u /\ supabase_key content = Some k.
Proof.
  intros Hu Hk Hune Hkne Huq Hkq; split.
  - apply (search_first_assignment url_prefix u content); auto.
  - apply (search_first_assignment key_prefix k content); auto.
Qed.

Lemma extraction_exact_witness :
  supabase_url sample_config = Some sample_url /\
  supabase_key sample_config = Some sample_key.
Proof.
  apply (extraction_exact sample_config sample_url sample_key);
    try reflexivity.
  - exists [], (nl ++ key_prefix ++ sample_key ++ lit "'" ++ nl);
      split; reflexivity.
  - exists (url_prefix ++ sample_url ++ lit "'" ++ nl), nl;
      split; vm_compute; reflexivity.
Defined.

(** C7: once both credentials are extracted, the first line printed shows
    the URL in full and the second shows the first 50 characters of the key
    followed by three dots; a key of 51 characters is shown without its last
    character. *)
Theorem credentials_echoed (w : world) (content u k : str) :
  read_file w config_path = inl content ->
  supabase_url content = Some u ->
  supabase_key content = Some k ->
  (exists rest,
      stdout (snd (run w)) =
      (9989%N :: lit " Found Supabase URL: " ++ u) ::
      (9989%N :: lit " Found Supabase Key: " ++ firstn 50 k ++ lit "...") ::
      rest) /\
  (length k = 51 ->
   exists k50 c, k = k50 ++ [c] /\ length k50 = 50 /\ firstn 50 k = k50).
Proof.
  intros Hread Hu Hk; split.
  - rewrite (run_credentials _ _ _ _ Hread Hu Hk).
    destruct (appends_after_credentials w (Some u) (Some k)
                (mkState [msg_found_url (Some u); msg_found_key (slice_to 50 k)] []))
      as (out & evs & ->).
    exists out; reflexivity.
  - intros Hlen.
    pose proof (firstn_skipn 50 k) as Hsplit.
    assert (Hrest : length (skipn 50 k) = 1) by (rewrite length_skipn; lia).
    destruct (skipn 50 k) as [|c [|? ?]]; try discriminate.
    exists (firstn 50 k), c; repeat split; auto.
    rewrite length_firstn; lia.
Qed.

Lemma credentials_echoed_witness :
  (exists rest,
      stdout (snd (run (world_rpc_missing (config_with sample_url key51)))) =
      (9989%N :: lit " Found Supabase URL: " ++ sample_url) ::
      (9989%N :: lit " Found Supabase Key: " ++ firstn 50 key51 ++ lit "...") ::
      rest) /\
  exists k50 c, key51 = k50 ++ [c] /\ length k50 = 50 /\ firstn 50 key51 = k50.
Proof.
  destruct (credentials_echoed (world_rpc_missing (config_with sample_url key51))
              (config_with sample_url key51) sample_url key51)
    as [Hlines Hkey]; try (vm_compute; reflexivity).
  split; [exact Hlines | apply Hkey; reflexivity].
Defined.





(** C9: in [sql_scripts] the statement that creates the profile table comes
    before the one that creates the check-ins table, which refers to the
    profile table's key; and for each of the two tables the statement that
    enables row level security comes before the policies on that table. *)
Theorem prerequisites_first :
  follows (creates_table Profile) (creates_table Checkins) sql_scripts /\
  follows (creates_table Profile) (references_table Profile) sql_scripts /\
  follows (enables_security Profile) (is_policy_on Profile) sql_scripts /\
  follows (enables_security Checkins) (is_policy_on Checkins) sql_scripts /\
  filter (references_table Profile) sql_scripts =
    filter (creates_table Checkins) sql_scripts /\
  length (filter (creates_table Checkins) sql_scripts) = 1 /\
  length (filter (is_policy_on Profile) sql_scripts) = 2 /\
  length (filter (is_policy_on Checkins) sql_scripts) = 2.
Proof.
  repeat split; try (apply followsb_sound); vm_compute; reflexivity.
Qed.



(* ================================================================== *)
(** ** Further properties of the script *)

(** X1: when the configuration file cannot be read, the exception is not
    caught: nothing is printed, no call is made and the exit status is 1. *)
Theorem unreadable_config_exit_one (w : world) (e : exception) :
  read_file w config_path = inr e ->
  fst (run w) = Raise (Exc e) /\
  stdout (snd (run w)) = [] /\
  calls (snd (run w)) = [] /\
  exit_status (fst (run w)) = 1%Z.
Proof.
  intros Hread; rewrite (run_unreadable w e Hread); repeat split.
Qed.

Lemma unreadable_config_exit_one_witness :
  fst (run world_unreadable) = Raise (Exc no_file) /\
  stdout (snd (run world_unreadable)) = [] /\
  calls (snd (run world_unreadable)) = [] /\
  exit_status (fst (run world_unreadable)) = 1%Z.
Proof.
  apply (unreadable_config_exit_one world_unreadable no_file); reflexivity.
Defined.

(** X2: when the import or the construction of the client raises an
    exception that is not an [ImportError], the script prints the three
    [Error during setup] lines, the first with the text of the exception,
    and exits with status 1 without sending any statement. *)
Theorem setup_error_exit_one (w : world) (content u k : str) (e : exception) :
  read_file w config_path = inl content ->
  supabase_url content = Some u ->
  supabase_key content = Some k ->
  import_supabase w = Some e \/
  (import_supabase w = None /\ create_client w (Some u) (Some k) = Some e) ->
  class_of e = OtherException ->
  exit_status (fst (run w)) = 1%Z /\
  stdout (snd (run w)) =
    [ 9989%N :: lit " Found Supabase URL: " ++ u;
      9989%N :: lit " Found Supabase Key: " ++ firstn 50 k ++ lit "...";
      10%N :: 9888%N :: 65039%N :: lit "  Error during setup: " ++ message e;
      10%N :: lit "Fallback: Run SQL manually in Supabase dashboard";
      lit "See SUPABASE_SETUP.md for the SQL scripts." ] /\
  rpc_calls (snd (run w)) = [].
Proof.
  intros Hread Hu Hk Hraise Hclass.
  rewrite (run_credentials _ _ _ _ Hread Hu Hk).
  destruct Hraise as [Hi | [Hi Hc]].
  - rewrite (after_credentials_import_raises _ _ _ _ _ Hi).
    unfold handler_lines; rewrite Hclass; repeat split.
  - rewrite (after_credentials_client_raises _ _ _ _ _ Hi Hc).
    unfold handler_lines; rewrite Hclass; repeat split.
Qed.

Lemma setup_error_exit_one_witness :
  exit_status (fst (run (world_client_fails bad_url sample_config))) = 1%Z /\
  stdout (snd (run (world_client_fails bad_url sample_config))) =
    [ 9989%N :: lit " Found Supabase URL: " ++ sample_url;
      9989%N :: lit " Found Supabase Key: " ++ firstn 50 sample_key ++ lit "...";
      10%N :: 9888%N :: 65039%N :: lit "  Error during setup: " ++ message bad_url;
      10%N :: lit "Fallback: Run SQL manually in Supabase dashboard";
      lit "See SUPABASE_SETUP.md for the SQL scripts." ] /\
  rpc_calls (snd (run (world_client_fails bad_url sample_config))) = [].
Proof.
  apply (setup_error_exit_one (world_client_fails bad_url sample_config)
           sample_config sample_url sample_key bad_url);
    try (vm_compute; reflexivity).
  right; split; reflexivity.
Defined.

(** X3: an [ImportError] raised while the client is built, after the import
    itself went through, is caught by the same clause as a failed import:
    the script prints the six [Supabase client import failed] lines and
    exits with status 1; the constructor was called once and no statement
    is attempted. *)
Theorem constructor_import_error_exit_one (w : world) (content u k : str) (e : exception) :
  read_file w config_path = inl content ->
  supabase_url content = Some u ->
  supabase_key content = Some k ->
  import_supabase w = None ->
  create_client w (Some u) (Some k) = Some e ->
  class_of e = ImportError ->
  exit_status (fst (run w)) = 1%Z /\
  stdout (snd (run w)) =
    [ 9989%N :: lit " Found Supabase URL: " ++ u;
      9989%N :: lit " Found Supabase Key: " ++ firstn 50 k ++ lit "...";
      10%N :: 9888%N :: 65039%N :: lit "  Supabase client import failed.";
      lit "Please run the SQL manually in Supabase dashboard:";
      10%N :: lit "1. Go to Supabase Dashboard";
      lit "2. Click 'SQL Editor' " ++ 8594%N :: lit " 'New Query'";
      lit "3. Copy and paste the SQL from SUPABASE_SETUP.md";
      lit "4. Click 'Run'" ] /\
  calls (snd (run w)) = [ImportSupabase; CreateClient (Some u) (Some k)].
Proof.
  intros Hread Hu Hk Hi Hc Hclass.
  rewrite (run_credentials _ _ _ _ Hread Hu Hk).
  rewrite (after_credentials_client_raises _ _ _ _ _ Hi Hc).
  unfold handler_lines; rewrite Hclass; repeat split.
Qed.

Lemma constructor_import_error_exit_one_witness :
  exit_status (fst (run (world_client_fails no_module sample_config))) = 1%Z /\
  stdout (snd (run (world_client_fails no_module sample_config))) =
    [ 9989%N :: lit " Found Supabase URL: " ++ sample_url;
      9989%N :: lit " Found Supabase Key: " ++ firstn 50 sample_key ++ lit "...";
      10%N :: 9888%N :: 65039%N :: lit "  Supabase client import failed.";
      lit "Please run the SQL manually in Supabase dashboard:";
      10%N :: lit "1. Go to Supabase Dashboard";
      lit "2. Click 'SQL Editor' " ++ 8594%N :: lit " 'New Query'";
      lit "3. Copy and paste the SQL from SUPABASE_SETUP.md";
      lit "4. Click 'Run'" ] /\
  calls (snd (run (world_client_fails no_module sample_config))) =
    [ImportSupabase; CreateClient (Some sample_url) (Some sample_key)].
Proof.
  apply (constructor_import_error_exit_one
           (world_client_fails no_module sample_config)
           sample_config sample_url sample_key no_module);
    vm_compute; reflexivity.
Defined.




(** X5: the exit status of a run is 0 or 1, and it is 0 exactly when the
    file is read, both credentials are extracted, the import succeeds and
    the client is built; what the RPC calls do plays no part. *)
Theorem exit_status_characterised (w : world) :
  (exit_status (fst (run w)) = 0%Z \/ exit_status (fst (run w)) = 1%Z) /\
  (exit_status (fst (run w)) = 0%Z <-> exists u k, reaches_executor w u k).
Proof.
  split.
  - destruct (run_ending w) as [? ? ->|? ? ? ->|? ? ? ? ? ? ? ? ->|? ? ? ? ? ? ? ? ? ->|? ? ? ->];
      cbn [fst exit_status]; auto.
  - split.
    + destruct (run_ending w) as [? ? ->|? ? ? ->|? ? ? ? ? ? ? ? ->|? ? ? ? ? ? ? ? ? ->|u k Hreach _];
        cbn [fst exit_status]; try discriminate.
      intros _; now exists u, k.
    + intros (u & k & Hreach); now rewrite (run_reaches_executor _ _ _ Hreach).
Qed.

Lemma exit_status_characterised_witness :
  exit_status (fst (run (world_flaky sample_config))) = 0%Z.
Proof.
  apply (proj2 (proj2 (exit_status_characterised (world_flaky sample_config)))).
  exists sample_url, sample_key, sample_config; repeat split; vm_compute; reflexivity.
Defined.

(** A line whose first two characters are not those of the banner is not
    the banner. *)
Ltac not_banner H :=
  apply (f_equal (firstn 2)) in H; vm_compute in H; discriminate H.

Lemma banner_not_in_handler_lines (e : exception) : ~ In banner (handler_lines e).
Proof.
  unfold handler_lines; destruct (class_of e); cbn [msgs_import_failed msgs_setup_error In];
    intros H; repeat (destruct H as [H | H]; [not_banner H|]); exact H.
Qed.

Lemma banner_not_in_found_lines (u k : str) : ~ In banner (found_lines u k).
Proof.
  cbn [found_lines In]; intros H.
  repeat (destruct H as [H | H]; [not_banner H|]); exact H.
Qed.

(** X6: a [print] whose argument is exactly the closing line [Setup
    complete! Your Supabase database is ready.] (with its leading line feed
    and sparkles) is made in exactly the runs that exit with status 0: the
    print of line 144 is reached if and only if the run gets past the
    client construction, and no other print of the script has this
    argument, whatever the file, the exception texts and the answers of the
    environment are. *)
Theorem banner_iff_exit_zero (w : world) :
  In banner (stdout (snd (run w))) <-> exit_status (fst (run w)) = 0%Z.
Proof.
  destruct (run_ending w)
    as [e _ ->|content _ _ ->|content u k e _ _ _ _ ->|content u k e _ _ _ _ _ ->|u k _ ->];
    cbn [fst snd stdout exit_status]; split; try discriminate; try reflexivity.
  - intros [].
  - intros [H | []]; not_banner H.
  - intros H; apply in_app_or in H as [H | H];
      [now apply banner_not_in_found_lines in H
      | now apply banner_not_in_handler_lines in H].
  - intros H; apply in_app_or in H as [H | H];
      [now apply banner_not_in_found_lines in H
      | now apply banner_not_in_handler_lines in H].
  - intros _; do 4 (apply in_or_app; right); now left.
Qed.

Lemma banner_iff_exit_zero_witness :
  In banner (stdout (snd (run (world_rpc_missing sample_config)))).
Proof.
  apply (proj2 (banner_iff_exit_zero (world_rpc_missing sample_config))).
  vm_compute; reflexivity.
Defined.

Lemma no_constructor_in_loop (w : world) (u k : str) (a b : value) :
  ~ In (CreateClient a b) (concat (map fst (loop_log w u k))).
Proof.
  intros Hin.
  assert (H : In (CreateClient a b)
                 (filter is_create_client (concat (map fst (loop_log w u k)))))
    by (apply filter_In; split; [exact Hin | reflexivity]).
  unfold loop_log in H; now rewrite replay_no_constructor in H.
Qed.

(** X7: in every run, a statement is sent only if the credentials were
    found, the import succeeded and the client was built; the client
    constructor is called at most once, only after a successful import, and
    with exactly the two extracted values, neither of them empty. *)
Theorem calls_discipline (w : world) :
  (rpc_calls (snd (run w)) <> [] -> exists u k, reaches_executor w u k) /\
  length (constructor_calls (snd (run w))) <= 1 /\
  (forall a b,
      In (CreateClient a b) (calls (snd (run w))) ->
      import_supabase w = None /\
      exists content,
        read_file w config_path = inl content /\
        supabase_url content = a /\ supabase_key content = b /\
        py_not a = false /\ py_not b = false).
Proof.
  destruct (run_ending w)
    as [e _ ->|content _ _ ->|content u k e _ _ _ _ ->
        |content u k e Hread Hu Hk Hi _ ->|u k Hreach ->];
    unfold rpc_calls, constructor_calls; cbn [snd calls].
  - split; [easy|]; split; [cbn; lia | intros a b []].
  - split; [easy|]; split; [cbn; lia | intros a b []].
  - split; [easy|]; split; [cbn; lia | intros a b [H | []]; discriminate].
  - split; [easy|]; split; [cbn; lia|].
    intros a b [H | [H | []]]; [discriminate|].
    injection H as <- <-; split; [exact Hi|].
    exists content; split; [exact Hread|]; split; [exact Hu|]; split; [exact Hk|].
    split; [exact (extracted_url_true _ _ Hu) | exact (extracted_key_true _ _ Hk)].
  - split; [intros _; now exists u, k|].
    split.
    + unfold client_calls; cbn [app filter is_create_client].
      unfold loop_log; rewrite replay_no_constructor; cbn; lia.
    + intros a b H; apply in_app_or in H as [[H | [H | []]] | H].
      * discriminate.
      * injection H as <- <-.
        destruct Hreach as (content & Hread & Hu & Hk & Hi & Hc).
        split; [exact Hi|].
        exists content; split; [exact Hread|]; split; [exact Hu|]; split; [exact Hk|].
        split; [exact (extracted_url_true _ _ Hu) | exact (extracted_key_true _ _ Hk)].
      * now apply no_constructor_in_loop in H.
Qed.

Lemma calls_discipline_witness :
  exists u k, reaches_executor (world_flaky sample_config) u k.
Proof.
  apply (proj1 (calls_discipline (world_flaky sample_config))).
  intros H; vm_compute in H; discriminate.
Defined.

(** X8: a key of at most 50 characters is printed whole on the second
    line: the preview hides nothing of it. *)
Theorem short_key_shown_whole (w : world) (content u k : str) :
  read_file w config_path = inl content ->
  supabase_url content = Some u ->
  supabase_key content = Some k ->
  length k <= 50 ->
  nth_error (stdout (snd (run w))) 1 =
  Some (9989%N :: lit " Found Supabase Key: " ++ k ++ lit "...").
Proof.
  intros Hread Hu Hk Hlen.
  rewrite (run_credentials _ _ _ _ Hread Hu Hk).
  destruct (appends_after_credentials w (Some u) (Some k)
              (mkState [msg_found_url (Some u); msg_found_key (slice_to 50 k)] []))
    as (out & evs & ->).
  cbn [stdout app nth_error]; unfold msg_found_key, slice_to.
  now rewrite firstn_all2.
Qed.

Lemma short_key_shown_whole_witness :
  nth_error (stdout (snd (run (world_ok (config_with sample_url (lit "short-key")))))) 1 =
  Some (9989%N :: lit " Found Supabase Key: " ++ lit "short-key" ++ lit "...").
Proof.
  apply (short_key_shown_whole (world_ok (config_with sample_url (lit "short-key")))
           (config_with sample_url (lit "short-key")) sample_url (lit "short-key"));
    try (vm_compute; reflexivity).
  vm_compute; lia.
Defined.

(** X9: what each extraction returns is the value of the leftmost
    well-formed assignment of its name (a non-empty value without
    apostrophe, closed by an apostrophe), and it returns a value exactly
    when the file has such an assignment; assignments that are not well
    formed are passed over. *)
Theorem extractor_leftmost (content v : str) :
  (supabase_url content = Some v <-> leftmost_assignment url_prefix v content) /\
  (supabase_key content = Some v <-> leftmost_assignment key_prefix v content).
Proof.
  split.
  - exact (group1_search_leftmost url_prefix content v).
  - exact (group1_search_leftmost key_prefix content v).
Qed.

Lemma extractor_leftmost_witness :
  leftmost_assignment key_prefix sample_key sample_config.
Proof.
  apply (proj1 (proj2 (extractor_leftmost sample_config sample_key))).
  vm_compute; reflexivity.
Defined.

(** X10: with a readable file, the run stops on the [Could not extract]
    error exactly when the file lacks a well-formed assignment of the URL or
    lacks one of the key. *)
Theorem validation_failure_iff (w : world) (content : str) :
  read_file w config_path = inl content ->
  (run w =
   (Raise (SystemExit 1),
    mkState [ 10060%N :: lit " ERROR: Could not extract Supabase credentials from supabase-config.js" ] []) <->
   ~ has_assignment url_prefix content \/ ~ has_assignment key_prefix content).
Proof.
  intros Hread; split.
  - intros Hrun.
    destruct (supabase_url content) as [u|] eqn:Hu.
    2:{ left; apply search_none_iff.
        unfold supabase_url in Hu.
        destruct (search url_re content) eqn:E; [discriminate | exact E]. }
    destruct (supabase_key content) as [k|] eqn:Hk.
    2:{ right; apply search_none_iff.
        unfold supabase_key in Hk.
        destruct (search key_re content) eqn:E; [discriminate | exact E]. }
    exfalso.
    rewrite (run_credentials _ _ _ _ Hread Hu Hk) in Hrun.
    destruct (appends_after_credentials w (Some u) (Some k)
                (mkState [msg_found_url (Some u); msg_found_key (slice_to 50 k)] []))
      as (out & evs & E).
    rewrite Hrun in E; cbn [snd stdout app] in E.
    apply (f_equal (fun st => option_map (firstn 1) (hd_error (stdout st)))) in E.
    vm_compute in E; discriminate.
  - intros Hno.
    change (run w = (Raise (SystemExit 1), mkState [msg_no_credentials] [])).
    apply (run_no_credentials w content Hread).
    unfold supabase_url, supabase_key.
    destruct Hno as [H | H]; apply search_none_iff in H.
    + change (search url_re content) with (search (assignment url_prefix) content).
      now rewrite H.
    + change (search key_re content) with (search (assignment key_prefix) content).
      rewrite H; apply orb_true_r.
Qed.

Lemma validation_failure_iff_witness :
  ~ has_assignment url_prefix (lit "const SUPABASE_ANON_KEY = 'k'") \/
  ~ has_assignment key_prefix (lit "const SUPABASE_ANON_KEY = 'k'").
Proof.
  apply (proj1 (validation_failure_iff
                  (world_ok (lit "const SUPABASE_ANON_KEY = 'k'"))
                  (lit "const SUPABASE_ANON_KEY = 'k'") eq_refl)).
  vm_compute; reflexivity.
Defined.

(** X11: for any list of statements, any first step number and any
    answers of the environment, the loop returns normally. It attempts each
    statement that is not blank once, in order: one lookup of the client for
    each, followed by what [attempt] says for the stripped text; and it
    prints one line for each. A blank statement costs no lookup, no call
    and no line, yet it counts in the numbering: the line of a statement,
    [Step n: Success] or [Step n: Attempting alternative execution...],
    carries the number of its place in the list. *)
Theorem loop_skips_blank_statements
    (w : world) (i : nat) (scripts : list str) (st : state) :
  fst (for_each w i scripts st) = Ret tt /\
  calls (snd (for_each w i scripts st)) =
    calls st ++
    concat (map fst
              (replay w (calls st)
                 (filter (fun sql => negb (is_empty sql)) (map strip scripts)))) /\
  length (filter is_lookup (calls (snd (for_each w i scripts st)))) =
    length (filter is_lookup (calls st)) + length (filter nonblank scripts) /\
  exists lines,
    stdout (snd (for_each w i scripts st)) = stdout st ++ lines /\
    length lines = length (filter nonblank scripts) /\
    forall n sql,
      nth_error scripts n = Some sql -> nonblank sql = true ->
      In (9989%N :: lit " Step " ++ str_of_nat (i + n) ++ lit ": Success") lines \/
      In (9203%N :: lit " Step " ++ str_of_nat (i + n) ++
          lit ": Attempting alternative execution...") lines.
Proof.
  rewrite for_each_spec; cbn [fst snd stdout calls].
  split; [reflexivity|]; split; [now rewrite attempts_texts|]; split.
  - rewrite filter_app, length_app, replay_lookups, !length_map.
    now rewrite attempts_count.
  - eexists; split; [reflexivity|]; split.
    + rewrite length_map, length_combine, length_map, replay_length, length_map.
      rewrite Nat.min_id; apply attempts_count.
    + intros n sql Hn Hnb.
      pose proof (attempts_position scripts i n sql Hn Hnb) as Hin.
      destruct (in_combine_results (attempts i scripts)
                  (map snd (replay w (calls st) (map snd (attempts i scripts))))
                  _ ltac:(now rewrite length_map, replay_length, length_map) Hin)
        as ([|] & Hok); [left | right];
        apply in_map_iff; eexists; (split; [|exact Hok]); reflexivity.
Qed.

Lemma loop_skips_blank_statements_witness :
  calls (snd (for_each (world_ok sample_config) 1
                [lit "SELECT 1;"; lit "   "; nl ++ lit "  SELECT 2;  "] initial)) =
    [LookupClient; execute_sql_call (lit "SELECT 1;"); Execute;
     LookupClient; execute_sql_call (lit "SELECT 2;"); Execute] /\
  (In (9989%N :: lit " Step 3: Success")
      (stdout (snd (for_each (world_ok sample_config) 1
                      [lit "SELECT 1;"; lit "   "; nl ++ lit "  SELECT 2;  "] initial))) \/
   In (9203%N :: lit " Step 3: Attempting alternative execution...")
      (stdout (snd (for_each (world_ok sample_config) 1
                      [lit "SELECT 1;"; lit "   "; nl ++ lit "  SELECT 2;  "] initial)))).
Proof.
  destruct (loop_skips_blank_statements (world_ok sample_config) 1
              [lit "SELECT 1;"; lit "   "; nl ++ lit "  SELECT 2;  "] initial)
    as (_ & Hcalls & _ & lines & Hout & _ & Hpos).
  split; [exact Hcalls|].
  rewrite Hout; exact (Hpos 2 _ eq_refl eq_refl).
Defined.

(** X12: running the loop over a list in two parts, the second numbered
    from where the first stopped, is the same as running it over the whole
    list. *)
Theorem loop_append (w : world) (a b : list str) :
  forall (i : nat) (st : state),
    for_each w i (a ++ b) st =
    (for_each w i a ;; for_each w (i + length a) b) st.
Proof.
  induction a as [|sql a IH]; intros i st.
  - cbn [app for_each length]; unfold bind, ret; now rewrite Nat.add_0_r.
  - cbn [app for_each length]; unfold bind.
    destruct (step w i sql st) as [[[]|r] st1]; [|reflexivity].
    rewrite IH; unfold bind.
    now replace (S i + length a) with (i + S (length a)) by lia.
Qed.



(** X14: what line 113 does shows only in the step lines and in the
    lookups and calls it makes itself. Two environments that agree on the
    file, on the import and on the client constructor give the same exit
    status, the same number of printed lines, the same import and
    constructor calls and the same number of attempts. *)
Theorem rpc_outcomes_invisible (w1 w2 : world) :
  read_file w1 config_path = read_file w2 config_path ->
  import_supabase w1 = import_supabase w2 ->
  (forall a b, create_client w1 a b = create_client w2 a b) ->
  fst (run w1) = fst (run w2) /\
  length (stdout (snd (run w1))) = length (stdout (snd (run w2))) /\
  filter (fun ev => negb (is_statement_step ev)) (calls (snd (run w1))) =
    filter (fun ev => negb (is_statement_step ev)) (calls (snd (run w2))) /\
  length (filter is_lookup (calls (snd (run w1)))) =
    length (filter is_lookup (calls (snd (run w2)))).
Proof.
  intros Hr Hi Hc.
  destruct (run_ending w1)
    as [e Hread ->|content Hread Hnone ->|content u k e Hread Hu Hk Himp ->
        |content u k e Hread Hu Hk Himp Hcl ->|u k Hreach ->].
  - rewrite Hr in Hread; now rewrite (run_unreadable w2 e Hread).
  - rewrite Hr in Hread.
    rewrite (run_no_credentials w2 content Hread); [repeat split|].
    destruct Hnone as [-> | ->]; [reflexivity | apply orb_true_r].
  - rewrite Hr in Hread; rewrite Hi in Himp.
    rewrite (run_credentials w2 _ _ _ Hread Hu Hk).
    now rewrite (after_credentials_import_raises _ _ _ _ _ Himp).
  - rewrite Hr in Hread; rewrite Hi in Himp; rewrite Hc in Hcl.
    rewrite (run_credentials w2 _ _ _ Hread Hu Hk).
    now rewrite (after_credentials_client_raises _ _ _ _ _ Himp Hcl).
  - assert (Hreach2 : reaches_executor w2 u k).
    { destruct Hreach as (content & Hread & Hu & Hk & Himp & Hcl).
      exists content; rewrite <- Hr, <- Hi, <- Hc; auto. }
    rewrite (run_reaches_executor _ _ _ Hreach2); cbn [fst snd stdout calls].
    split; [reflexivity|]; split; [|split].
    + rewrite !length_app, !step_lines_length; reflexivity.
    + unfold loop_log; rewrite !filter_app, !replay_only_statement_steps.
      reflexivity.
    + unfold loop_log; rewrite !filter_app, !replay_lookups; reflexivity.
Qed.

Lemma rpc_outcomes_invisible_witness :
  fst (run (world_ok sample_config)) = fst (run (world_no_attribute sample_config)) /\
  length (stdout (snd (run (world_ok sample_config)))) =
    length (stdout (snd (run (world_no_attribute sample_config)))) /\
  filter (fun ev => negb (is_statement_step ev))
         (calls (snd (run (world_ok sample_config)))) =
    filter (fun ev => negb (is_statement_step ev))
           (calls (snd (run (world_no_attribute sample_config)))) /\
  length (filter is_lookup (calls (snd (run (world_ok sample_config))))) =
    length (filter is_lookup (calls (snd (run (world_no_attribute sample_config))))).
Proof.
  apply (rpc_outcomes_invisible (world_ok sample_config)
           (world_no_attribute sample_config)); reflexivity.
Defined.
